(** * API gateway: authentication gate, route table and REST-to-RPC bridge

    A shallow embedding of the Express application of the gateway
    (the full-featured variant: six proxied services, two gRPC clients)
    and the properties of its routing-and-bridging engine.

    The pipeline modelled here starts where the three library middlewares
    registered first (request logging, rate limiting, CORS) have handed the
    request on: [verifyJWT], the mounted proxies, the three bridged
    endpoints, the health probe and the final error handler.  The CORS
    middleware answers every OPTIONS request itself, so that method does
    not occur below; the responses those three middlewares write
    themselves are not part of [handle].

    Library behaviour the application relies on is written out as plain
    functions and named after the library operation it stands for:
    - [Express.use_match], [Express.trim_prefix], [Express.route_match]:
      the router of Express 4 (prefix match on a segment boundary, case
      insensitive, mount prefix removed from [req.url] with a leading
      slash kept);
    - [pathname]: the path of a request target in origin form
      ([origin_form]), which is the target up to its query string;
    - [hpm]: the source does not say which release of
      http-proxy-middleware it runs on, and the two generations of that
      library treat the options the source passes differently.  Up to 2.x
      the library resets [req.url] to [req.originalUrl] before it calls
      [pathRewrite], and it calls the top-level [onProxyReq],
      [onProxyRes] and [onError]; from 3.x on it hands the mount-relative
      [req.url] to [pathRewrite], reads callbacks from the [on] option
      only, and answers a failed exchange itself.  The [world] says which
      one is installed, and [proxy] follows it;
    - token verification, RPC calls and upstream exchanges are outcomes
      supplied by a [world].

    The logging callbacks [onProxyReq] and [onProxyRes] are kept as syntax
    and evaluated in their scope ([Callback]).  Where the library calls
    them (up to 2.x) it does so from the event emitter of the proxy: an
    exception they raise is seen by no handler of the router, and nothing
    is written for the request.

    Real time is not modelled.  The time-outs of a route are data handed
    to the library; an exchange that runs into one ends as an error
    ([UpError]).  The RPC calls set no deadline: a call whose backend
    never answers is the outcome [RpcSilent]. *)

From Stdlib Require Import Ascii String List Bool Arith Lia ZArith.
From stdpp Require Import base option list strings gmap pretty.

Import ListNotations.

(** ** Strings as JavaScript uses them *)

Module Str.

(** [s.startsWith(p)] *)
Fixpoint startsWith (p s : string) : bool :=
  match p, s with
  | EmptyString, _ => true
  | String a p', String b s' => if Ascii.eqb a b then startsWith p' s' else false
  | String _ _, EmptyString => false
  end.

(** [s.slice(n)] for [0 <= n] *)
Fixpoint slice (n : nat) (s : string) : string :=
  match n, s with
  | O, _ => s
  | S n', String _ s' => slice n' s'
  | S _, EmptyString => EmptyString
  end.

(** [s.split(sep)] for a one-character separator *)
Fixpoint split (sep : ascii) (s : string) : list string :=
  match s with
  | EmptyString => [EmptyString]
  | String c s' =>
      if Ascii.eqb c sep then EmptyString :: split sep s'
      else match split sep s' with
           | [] => [String c EmptyString]
           | w :: ws => String c w :: ws
           end
  end.

Definition is_upper (c : ascii) : bool :=
  let n := nat_of_ascii c in (65 <=? n) && (n <=? 90).

Definition lower_ascii (c : ascii) : ascii :=
  if is_upper c then ascii_of_nat (nat_of_ascii c + 32) else c.

(** [s.toLowerCase()] on ASCII *)
Fixpoint lower (s : string) : string :=
  match s with
  | EmptyString => EmptyString
  | String c s' => String (lower_ascii c) (lower s')
  end.

(** Remove the literal [pat] from the start of [s]. *)
Fixpoint strip (pat s : string) : option string :=
  match pat, s with
  | EmptyString, _ => Some s
  | String a pat', String b s' => if Ascii.eqb a b then strip pat' s' else None
  | String _ _, EmptyString => None
  end.

(** the part of [s] before the first occurrence of [c] *)
Fixpoint before (c : ascii) (s : string) : string :=
  match s with
  | EmptyString => EmptyString
  | String a s' => if Ascii.eqb a c then EmptyString else String a (before c s')
  end.

(** the part of [s] from the first occurrence of [c] on *)
Fixpoint from (c : ascii) (s : string) : string :=
  match s with
  | EmptyString => EmptyString
  | String a s' => if Ascii.eqb a c then s else from c s'
  end.

End Str.

(** [parseurl(req).pathname] on the fast path of [parseurl]: the target
    up to its query string.  This is the path of every target in origin
    form ([origin_form] below); for any other target [parseurl] calls
    [url.parse], which is not modelled. *)
Definition pathname (url : string) : string := Str.before "?"%char url.

(** The characters that make [parseurl] leave its fast path: tab, line
    feed, form feed, carriage return, space, [#] and the no-break space. *)
Definition leaves_fast_path (c : ascii) : bool :=
  let n := nat_of_ascii c in
  (n =? 9) || (n =? 10) || (n =? 12) || (n =? 13) || (n =? 32) || (n =? 35)
  || (n =? 160).

Fixpoint fast_path (s : string) : bool :=
  match s with
  | EmptyString => true
  | String c s' => negb (leaves_fast_path c) && fast_path s'
  end.

(** A request target in origin form: it starts with a slash and stays on
    the fast path of [parseurl]. *)
Definition origin_form (target : string) : bool :=
  Str.startsWith "/" target && fast_path target.

(** ** The Express router *)

Module Express.

(** [app.use(mount, fn)]: the layer's regular expression is
    [^<mount>\/?(?=\/|$)] with flag [i]; a match under [i] is a match of
    the lower-cased pattern on the lower-cased path.  The result is the
    length of the matched part of the path ([layerPath.length]): the
    optional slash is taken when a slash or the end follows it. *)
Definition use_match (mount path : string) : option nat :=
  match Str.strip (Str.lower mount) (Str.lower path) with
  | None => None
  | Some rest =>
      match rest with
      | EmptyString => Some (String.length mount)
      | String c rest' =>
          if Ascii.eqb c "/" then
            match rest' with
            | EmptyString => Some (S (String.length mount))
            | String c' _ =>
                if Ascii.eqb c' "/" then Some (S (String.length mount))
                else Some (String.length mount)
            end
          else None
      end
  end.

(** [trim_prefix]: [req.url] with the matched prefix removed, and a
    leading slash ensured. *)
Definition trim_prefix (removed : nat) (url : string) : string :=
  let u := Str.slice removed url in
  if Str.startsWith "/" u then u else "/" +:+ u.

(** [app.get/post/patch(path, ...)]: the route's regular expression is
    [^<path>\/?$] with flag [i]. *)
Definition route_match (pat path : string) : bool :=
  match Str.strip (Str.lower pat) (Str.lower path) with
  | Some rest => String.eqb rest "" || String.eqb rest "/"
  | None => false
  end.

End Express.

(** ** Data *)

(** JSON values: request bodies, RPC messages, response bodies *)
#[warnings="-register-all"]
Inductive json :=
| JNull
| JBool (b : bool)
| JNum (n : Z)
| JStr (s : string)
| JArr (xs : list json)
| JObj (fields : list (string * json)).

Fixpoint assoc {A} (k : string) (fs : list (string * A)) : option A :=
  match fs with
  | [] => None
  | (k', v) :: fs' => if String.eqb k k' then Some v else assoc k fs'
  end.

(** Property read [j.k] as a destructuring pattern does it: [None] stands
    for [undefined].  The body parser (strict mode) yields objects and
    arrays only; an array has a [length]. *)
Definition prop (k : string) (j : json) : option json :=
  match j with
  | JObj fs => assoc k fs
  | JArr xs => if String.eqb k "length" then Some (JNum (Z.of_nat (length xs))) else None
  | _ => None
  end.

(** [const { k1, ..., kn } = body] followed by the object literal
    [{ k1, ..., kn }]: the message handed to the RPC client. *)
Definition pick (keys : list string) (body : json) : list (string * option json) :=
  map (fun k => (k, prop k body)) keys.

Inductive method := GET | HEAD | POST | PUT | PATCH | DELETE.

Definition method_eqb (a b : method) : bool :=
  match a, b with
  | GET, GET | HEAD, HEAD | POST, POST | PUT, PUT | PATCH, PATCH | DELETE, DELETE => true
  | _, _ => false
  end.

(** [req.method] *)
Definition method_name (m : method) : string :=
  match m with
  | GET => "GET"
  | HEAD => "HEAD"
  | POST => "POST"
  | PUT => "PUT"
  | PATCH => "PATCH"
  | DELETE => "DELETE"
  end.

(** The entity of a request as the JSON body parser sees it: its size in
    bytes and what the parser makes of it ([None]: it rejects the entity;
    a request without a JSON entity has the empty object). *)
Record entity := { bytes : N; content : option json }.

(** A request as it arrives. *)
Record inbound := {
  in_method : method;
  in_target : string;                  (* request target: path and query *)
  in_authorization : option string;    (* the Authorization header *)
  in_entity : entity
}.

(** The [req] object the handlers see. *)
Record request := {
  req_method : method;
  originalUrl : string;
  url : string;                        (* relative to the mount point *)
  authorization : option string;       (* req.headers.authorization *)
  payload : entity;
  body : option json;                  (* req.body, set by the body parser *)
  user : option json                   (* req.user, set by verifyJWT *)
}.

Definition receive (i : inbound) : request :=
  {| req_method := in_method i; originalUrl := in_target i; url := in_target i;
     authorization := in_authorization i; payload := in_entity i;
     body := None; user := None |}.

Definition with_url (u : string) (rq : request) : request :=
  {| req_method := req_method rq; originalUrl := originalUrl rq; url := u;
     authorization := authorization rq; payload := payload rq;
     body := body rq; user := user rq |}.

Definition with_body (b : json) (rq : request) : request :=
  {| req_method := req_method rq; originalUrl := originalUrl rq; url := url rq;
     authorization := authorization rq; payload := payload rq;
     body := Some b; user := user rq |}.

Definition with_user (c : json) (rq : request) : request :=
  {| req_method := req_method rq; originalUrl := originalUrl rq; url := url rq;
     authorization := authorization rq; payload := payload rq;
     body := body rq; user := Some c |}.

(** What is written to the client. *)
Inductive content_out :=
| Json (j : json)            (* res.json(j) *)
| Text (s : string)          (* res.send(s) *)
| Relayed (b : string)       (* upstream response piped through *)
| ErrorPage                  (* the router's own final handler *)
| LibraryError               (* the error text the proxy library writes itself *)
| Interrupted (c : content_out). (* [c], ended with that error text *)

Record response := { status : nat; content_of : content_out }.

(** The upstream services, by the environment variable that holds their
    base URL. *)
Inductive service := Auth | Stakeholders | Blog | Tour | Followers | Payments.

Definition service_url_key (s : service) : string :=
  match s with
  | Auth => "AUTH_SERVICE_URL"
  | Stakeholders => "STAKEHOLDERS_SERVICE_URL"
  | Blog => "BLOG_SERVICE_URL"
  | Tour => "TOUR_SERVICE_URL"
  | Followers => "FOLLOWERS_SERVICE_URL"
  | Payments => "PAYMENTS_SERVICE_URL"
  end.

(** the name a service goes by in messages *)
Definition service_name (s : service) : string :=
  match s with
  | Auth => "auth"
  | Stakeholders => "stakeholders"
  | Blog => "blog"
  | Tour => "tour"
  | Followers => "followers"
  | Payments => "payments"
  end.

(** The unary calls of the two gRPC clients. *)
Inductive rpc_method :=
| BlogCreate              (* blogClient.Create *)
| BlogPostComment         (* blogClient.PostComment *)
| TourCreateTour.         (* tourClient.CreateTour *)

(** the variable holding the address of the client of a call *)
Definition rpc_host_key (m : rpc_method) : string :=
  match m with
  | BlogCreate | BlogPostComment => "BLOG_SERVICE_GRPC_HOST"
  | TourCreateTour => "TOUR_SERVICE_GRPC_HOST"
  end.

(** [grpc.status.NOT_FOUND] *)
Definition NOT_FOUND : Z := 5.
(** [grpc.status.UNAVAILABLE]: the status of a call whose backend cannot be reached *)
Definition UNAVAILABLE : Z := 14.

(** How a unary call ends: the callback receives a response, or an error
    with a status code and a message; or the stub throws at the call; or
    the callback is never invoked (the calls are made without a deadline,
    so a backend that accepts the call and never answers leaves it
    pending). *)
Inductive rpc_outcome :=
| RpcReply (r : json)
| RpcError (code : Z) (message : string)
| RpcThrow (e : string)
| RpcSilent.

(** How the exchange with an upstream ends: a response is relayed; or the
    proxy reports an error (connection refused or reset, time-out, no
    response), [started] being what had been written to the client by
    then; or the middleware hands an error to [next]. *)
Inductive upstream_outcome :=
| UpReply (st : nat) (b : string)
| UpError (started : option response) (message : string)
| UpThrow (e : string).

(** The installed release of http-proxy-middleware: one of the releases
    up to 2.x ([Hpm2]), or 3.x or later ([Hpm3]). *)
Inductive hpm := Hpm2 | Hpm3.

(** Everything outside the gateway. *)
Record world := {
  env : gmap string string;                                   (* process.env *)
  jwt_verify : string -> option string -> option json;        (* jwt.verify(token, secret): the claims, or it throws *)
  rpc : rpc_method -> list (string * option json) -> rpc_outcome;
  upstream : service -> method -> string -> upstream_outcome;
  library : hpm;                                              (* node_modules/http-proxy-middleware *)
  error_status : string -> nat                                (* 3.x: the status its own error response derives from the error *)
}.

(** ** The logging callbacks of the proxies

    The callbacks [onProxyReq] and [onProxyRes] only build a log line from
    a template literal.  What matters about them is which identifiers they
    read and where these are bound, so their bodies are kept as syntax and
    evaluated in a scope. *)

Module Callback.

#[warnings="-register-all"]
Inductive value :=
| VUndefined
| VStr (s : string)
| VNum (n : Z)
| VObj (fields : list (string * value))
| VEnv (e : gmap string string)       (* process.env *)
| VOpaque.                            (* a function or library object *)

Inductive expr :=
| Ident (x : string)                  (* x *)
| Member (e : expr) (f : string)      (* e.f *)
| OrEmpty (e : expr).                 (* e || "" *)

Inductive part :=
| Lit (s : string)
| Hole (e : expr).                    (* ${e} *)

Inductive simple :=
| Const (x : string) (e : expr)       (* const x = e; *)
| LoggerInfo (template : list part).  (* logger.info(`...`); *)

Inductive stmt :=
| Plain (s : simple)
| Try (block : list simple).          (* try { block } catch (_) { } *)

Inductive js_error :=
| ReferenceError (x : string)         (* x is not defined *)
| TypeError (what : string).

Inductive result (A : Type) :=
| Done (a : A)
| Throws (e : js_error).
Arguments Done {A} a.
Arguments Throws {A} e.

Definition bind {A B} (r : result A) (k : A -> result B) : result B :=
  match r with
  | Done a => k a
  | Throws e => Throws e
  end.

Definition scope := list (string * value).

Definition falsy (v : value) : bool :=
  match v with
  | VUndefined => true
  | VStr EmptyString => true
  | VNum 0%Z => true
  | _ => false
  end.

Fixpoint eval (sc : scope) (e : expr) : result value :=
  match e with
  | Ident x =>
      match assoc x sc with
      | Some v => Done v
      | None => Throws (ReferenceError x)
      end
  | Member e' f =>
      bind (eval sc e') (fun v =>
        match v with
        | VUndefined => Throws (TypeError f)
        | VObj fs => Done (default VUndefined (assoc f fs))
        | VEnv m => Done (from_option VStr VUndefined (m !! f))
        | _ => Done VUndefined
        end)
  | OrEmpty e' =>
      bind (eval sc e') (fun v => Done (if falsy v then VStr "" else v))
  end.

(** conversion to a string inside a template literal *)
Definition show (v : value) : string :=
  match v with
  | VUndefined => "undefined"
  | VStr s => s
  | VNum n => pretty n
  | VObj _ | VEnv _ => "[object Object]"
  | VOpaque => "[opaque]"
  end.

Fixpoint render (sc : scope) (t : list part) : result string :=
  match t with
  | [] => Done ""
  | Lit s :: t' => bind (render sc t') (fun r => Done (s +:+ r))
  | Hole e :: t' =>
      bind (eval sc e) (fun v => bind (render sc t') (fun r => Done (show v +:+ r)))
  end.

(** Run statements; the state is the scope and the lines logged so far. *)
Fixpoint run_simple (sc : scope) (out : list string) (b : list simple)
  : result (scope * list string) :=
  match b with
  | [] => Done (sc, out)
  | Const x e :: b' => bind (eval sc e) (fun v => run_simple ((x, v) :: sc) out b')
  | LoggerInfo t :: b' => bind (render sc t) (fun l => run_simple sc (out ++ [l]) b')
  end.

Fixpoint run (sc : scope) (out : list string) (b : list stmt)
  : result (list string) :=
  match b with
  | [] => Done out
  | Plain s :: b' =>
      bind (run_simple sc out [s]) (fun '(sc', out') => run sc' out' b')
  | Try block :: b' =>
      match run_simple sc out block with
      | Done (_, out') => run sc out' b'
      | Throws _ => run sc out b'
      end
  end.

(** The names bound at the top level of the module: its imports and its
    [const] declarations. *)
Definition module_bindings : list string :=
  [ "express"; "logger"; "morganMiddleware"; "rateLimit"; "createProxyMiddleware";
    "cors"; "dotenv"; "path"; "jwt"; "grpc"; "protoLoader";
    "app"; "PORT"; "requiredEnv"; "missingVars"; "verifyJWT";
    "PROTO_PATH"; "packageDef"; "grpcObj"; "blogPackage"; "blogClient";
    "TOUR_PROTO_PATH"; "tourPackageDef"; "tourGrpcObj"; "tourPackage"; "tourClient" ].

(** The scope a callback body runs in: its parameters, then the module's
    bindings, then the globals. *)
Definition enclosing (e : gmap string string) (params : scope) : scope :=
  params
  ++ map (fun x => (x, VOpaque)) module_bindings
  ++ [ ("process", VObj [("env", VEnv e)]); ("console", VOpaque) ].

(** [(first, req, res) => { body }] applied to its three arguments *)
Definition call (e : gmap string string) (first : string) (body : list stmt)
    (a req res : value) : result (list string) :=
  run (enclosing e [(first, a); ("req", req); ("res", res)]) [] body.

(** whether a call returns *)
Definition completes (r : result (list string)) : bool :=
  match r with
  | Done _ => true
  | Throws _ => false
  end.

End Callback.

(** ** The route table *)

Inductive rewrite :=
| Unchanged                              (* no [pathRewrite] option *)
| Prepend (prefix : string)              (* (path) => prefix + (path || "") *)
| Replace (pat : string) (by_ : string). (* { "^pat": by_ } *)

Record proxy_rule := {
  mount : string;
  target : service;
  timeout : N;                           (* milliseconds *)
  proxyTimeout : N;
  pathRewrite : rewrite;
  onProxyReq : list Callback.stmt;
  onProxyRes : list Callback.stmt;
  failure_message : string               (* the [message] of the body [onError] writes *)
}.

Definition apply_rewrite (rw : rewrite) (path : string) : string :=
  match rw with
  | Unchanged => path
  | Prepend prefix => prefix +:+ path
  | Replace pat by_ =>
      if Str.startsWith pat path
      then by_ +:+ Str.slice (String.length pat) path
      else path
  end.

Import Callback.

Definition req_method_ : expr := Member (Ident "req") "method".
Definition req_originalUrl : expr := Member (Ident "req") "originalUrl".
Definition process_env (key : string) : expr :=
  Member (Member (Ident "process") "env") key.

(** The callbacks every route but one has: the forwarding line is logged
    inside [try]/[catch], the response line after a local [const target]. *)
Definition log_forwarding (s : service) : list stmt :=
  [ Try [ LoggerInfo
            [ Lit "[Gateway] forwarding "; Hole req_method_; Lit " ";
              Hole req_originalUrl; Lit " -> ";
              Hole (process_env (service_url_key s));
              Hole (OrEmpty (Member (Ident "proxyReq") "path")) ] ] ].

Definition log_response (s : service) : list stmt :=
  [ Plain (Const "target" (process_env (service_url_key s)));
    Plain (LoggerInfo
             [ Lit "[Gateway] "; Hole req_method_; Lit " "; Hole req_originalUrl;
               Lit " -> "; Hole (Ident "target"); Lit " (status: ";
               Hole (Member (Ident "proxyRes") "statusCode"); Lit ")" ]) ].

(** The callbacks of the tour-execution route. *)
Definition log_forwarding_tour_execution : list stmt :=
  [ Plain (LoggerInfo
             [ Lit "[Gateway] forwarding "; Hole req_method_; Lit " ";
               Hole req_originalUrl; Lit " -> "; Hole (Ident "target");
               Hole (OrEmpty (Member (Ident "proxyReq") "path")) ]) ].

Definition log_response_tour_execution : list stmt :=
  [ Plain (LoggerInfo
             [ Lit "[Gateway] "; Hole req_method_; Lit " "; Hole req_originalUrl;
               Lit " -> "; Hole (Ident "target"); Lit " (status: ";
               Hole (Member (Ident "proxyRes") "statusCode"); Lit ")" ]) ].

Definition auth_rule : proxy_rule :=
  {| mount := "/auth"; target := Auth; timeout := 30000%N; proxyTimeout := 30000%N;
     pathRewrite := Prepend "/auth";
     onProxyReq := log_forwarding Auth; onProxyRes := log_response Auth;
     failure_message := "Gateway failed to reach auth service" |}.

Definition stakeholders_rule : proxy_rule :=
  {| mount := "/stakeholders"; target := Stakeholders;
     timeout := 30000%N; proxyTimeout := 30000%N;
     pathRewrite := Unchanged;
     onProxyReq := log_forwarding Stakeholders;
     onProxyRes := log_response Stakeholders;
     failure_message := "Gateway failed to reach stakeholders service" |}.

Definition blog_rule : proxy_rule :=
  {| mount := "/api/blog"; target := Blog; timeout := 30000%N; proxyTimeout := 30000%N;
     pathRewrite := Prepend "/api/blog";
     onProxyReq := log_forwarding Blog; onProxyRes := log_response Blog;
     failure_message := "Gateway failed to reach blog service" |}.

Definition tour_rule : proxy_rule :=
  {| mount := "/api/tour"; target := Tour; timeout := 10000%N; proxyTimeout := 10000%N;
     pathRewrite := Prepend "/api/tour";
     onProxyReq := log_forwarding Tour; onProxyRes := log_response Tour;
     failure_message := "Gateway failed to reach tour service" |}.

Definition tour_execution_rule : proxy_rule :=
  {| mount := "/api/tour-execution"; target := Tour;
     timeout := 10000%N; proxyTimeout := 10000%N;
     pathRewrite := Prepend "/api/tour-execution";
     onProxyReq := log_forwarding_tour_execution;
     onProxyRes := log_response_tour_execution;
     failure_message := "Gateway failed to reach tour service" |}.

Definition followers_rule : proxy_rule :=
  {| mount := "/api/followers"; target := Followers;
     timeout := 10000%N; proxyTimeout := 10000%N;
     pathRewrite := Replace "/api/followers" "";
     onProxyReq := log_forwarding Followers;
     onProxyRes := log_response Followers;
     failure_message := "Gateway failed to reach followers service" |}.

Definition carts_rule : proxy_rule :=
  {| mount := "/api/carts"; target := Payments;
     timeout := 10000%N; proxyTimeout := 10000%N;
     pathRewrite := Prepend "/api/carts";
     onProxyReq := log_forwarding Payments;
     onProxyRes := log_response Payments;
     failure_message := "Gateway failed to reach followers service" |}.

(** The proxied routes, in the order of their registration. *)
Definition route_table : list proxy_rule :=
  [ auth_rule; stakeholders_rule; blog_rule; tour_rule; tour_execution_rule;
    followers_rule; carts_rule ].

(** The message a route's 502 body would carry if it named the service
    the route forwards to. *)
Definition names_target (r : proxy_rule) : string :=
  "Gateway failed to reach " +:+ service_name (target r) +:+ " service".

(** ** Handlers *)

(** The outbound calls made for a request: an RPC call with its message;
    a proxy that took the request, with the path it hands to the
    underlying proxy to forward. *)
Inductive event :=
| Invoked (m : rpc_method) (message : list (string * option json))
| Proxied (r : proxy_rule) (m : method) (path : string).

(** The response side of a request: what has been written to the client,
    and the outbound calls made on its behalf. *)
Record state := { sent : list response; trace : list event }.

Definition fresh : state := {| sent := []; trace := [] |}.

(** [res.headersSent] *)
Definition headersSent (st : state) : bool :=
  match sent st with
  | [] => false
  | _ :: _ => true
  end.

Definition send (code : nat) (c : content_out) (st : state) : state :=
  {| sent := sent st ++ [ {| status := code; content_of := c |} ]; trace := trace st |}.

Definition wrote (r : response) (st : state) : state :=
  {| sent := sent st ++ [r]; trace := trace st |}.

Definition record (e : event) (st : state) : state :=
  {| sent := sent st; trace := trace st ++ [e] |}.

Definition message (s : string) : content_out := Json (JObj [("message", JStr s)]).

(** What a handler does with a request: call [next()], call [next(err)] or
    throw, or neither (the response is its business from there). *)
Inductive step :=
| Next (rq : request) (st : state)
| Raise (err : string) (st : state)
| Stop (st : state).

Definition handler := request -> state -> step.

(** [authHeader.split(" ")[1]] *)
Definition token_of (authHeader : string) : option string :=
  nth_error (Str.split " "%char authHeader) 1.

Definition verifyJWT (w : world) : handler := fun rq st =>
  if Str.startsWith "/auth" (originalUrl rq) then Next rq st
  else
    match authorization rq with
    | None => Stop (send 401 (message "No token provided") st)
    | Some authHeader =>
        if String.eqb authHeader "" || negb (Str.startsWith "Bearer " authHeader)
        then Stop (send 401 (message "No token provided") st)
        else
          match token_of authHeader ≫= (fun token => jwt_verify w token (env w !! "JWT_SECRET")) with
          | Some decoded => Next (with_user decoded rq) st
          | None => Stop (send 403 (message "Invalid or expired token") st)
          end
    end.

(** [onError] of a route: the seven closures differ in the message only. *)
Definition onError (r : proxy_rule) (err_message : string) (st : state) : state :=
  if headersSent st then st
  else send 502 (Json (JObj [("message", JStr (failure_message r));
                             ("error", JStr err_message)])) st.

(** The url the library hands to [pathRewrite]: up to 2.x it first sets
    [req.url = req.originalUrl || req.url]; 3.x leaves [req.url] as the
    router made it, relative to the mount point. *)
Definition handed (l : hpm) (rq : request) : string :=
  match l with
  | Hpm2 => originalUrl rq
  | Hpm3 => url rq
  end.

(** The arguments the library calls the logging callbacks with, with the
    properties the callbacks read ([proxyReq.path] for a base URL without
    a path of its own). *)
Definition req_object (rq : request) : value :=
  VObj [("method", VStr (method_name (req_method rq)));
        ("originalUrl", VStr (originalUrl rq))].

Definition proxyReq_object (path : string) : value :=
  VObj [("path", VStr path)].

Definition proxyRes_object (code : nat) : value :=
  VObj [("statusCode", VNum (Z.of_nat code))].

(** Whether the exchange gets past the route's [onProxyReq]: up to 2.x
    the library calls it when the outgoing request has its socket, and an
    exception it raises there is caught by nobody; 3.x never calls it. *)
Definition passes_onProxyReq (w : world) (r : proxy_rule) (rq : request)
    (path : string) : bool :=
  match library w with
  | Hpm2 =>
      completes (call (env w) "proxyReq" (onProxyReq r)
                      (proxyReq_object path) (req_object rq) VOpaque)
  | Hpm3 => true
  end.

(** The same for [onProxyRes], called when the response of the upstream
    arrives, before anything of it is written to the client. *)
Definition passes_onProxyRes (w : world) (r : proxy_rule) (rq : request)
    (code : nat) : bool :=
  match library w with
  | Hpm2 =>
      completes (call (env w) "proxyRes" (onProxyRes r)
                      (proxyRes_object code) (req_object rq) VOpaque)
  | Hpm3 => true
  end.

(** [res.end(text)] on a response that has been started: the response
    under way ends with the text. *)
Fixpoint interrupt (xs : list response) : list response :=
  match xs with
  | [] => []
  | [x] => [ {| status := status x; content_of := Interrupted (content_of x) |} ]
  | x :: xs' => x :: interrupt xs'
  end.

(** What a failed exchange is answered with: up to 2.x the route's
    [onError]; 3.x does not read that option and ends the response with
    its own error text, after a status line of its own unless the
    response has been started. *)
Definition failed (w : world) (r : proxy_rule) (err_message : string) (st : state)
  : state :=
  match library w with
  | Hpm2 => onError r err_message st
  | Hpm3 =>
      if headersSent st then {| sent := interrupt (sent st); trace := trace st |}
      else send (error_status w err_message) LibraryError st
  end.

(** [createProxyMiddleware(options)]: rewrite the path, forward, relay
    the response or answer the failure. *)
Definition proxy (w : world) (r : proxy_rule) : handler := fun rq st =>
  let path := apply_rewrite (pathRewrite r) (handed (library w) rq) in
  let st1 := record (Proxied r (req_method rq) path) st in
  match upstream w (target r) (req_method rq) path with
  | UpThrow e => Raise e st1
  | UpReply code b =>
      if passes_onProxyReq w r rq path && passes_onProxyRes w r rq code
      then Stop (send code (Relayed b) st1)
      else Stop st1
  | UpError None err_message =>
      if passes_onProxyReq w r rq path
      then Stop (failed w r err_message st1)
      else Stop st1
  | UpError (Some p) err_message =>
      if passes_onProxyReq w r rq path && passes_onProxyRes w r rq (status p)
      then Stop (failed w r err_message (wrote p st1))
      else Stop st1
  end.

(** [express.json({ limit })] *)
Definition express_json (limit : N) : handler := fun rq st =>
  if (limit <? bytes (payload rq))%N then Raise "request entity too large" st
  else
    match content (payload rq) with
    | None => Raise "Unexpected token in JSON" st
    | Some j => Next (with_body j rq) st
    end.

Definition limit_50mb : N := 50 * 1024 * 1024.
Definition limit_default : N := 100 * 1024.

(** The bridged endpoints: method, path and the limit given to the body
    parser of each. *)
Definition endpoint_method (m : rpc_method) : method :=
  match m with
  | BlogCreate => POST
  | BlogPostComment => PATCH
  | TourCreateTour => POST
  end.

Definition endpoint_path (m : rpc_method) : string :=
  match m with
  | BlogCreate => "/api/blog"
  | BlogPostComment => "/api/blog/comment"
  | TourCreateTour => "/api/tour"
  end.

Definition endpoint_limit (m : rpc_method) : N :=
  match m with
  | BlogCreate => limit_50mb
  | BlogPostComment => limit_default
  | TourCreateTour => limit_50mb
  end.

(** the fields a bridged endpoint takes from the body *)
Definition rpc_fields (m : rpc_method) : list string :=
  match m with
  | BlogCreate => ["author"; "title"; "description"; "images"]
  | BlogPostComment => ["blogId"; "author"; "text"]
  | TourCreateTour =>
      ["author"; "title"; "description"; "difficulty"; "price"; "tags";
       "keyPoints"; "durations"; "length"]
  end.

(** The handler of a bridged endpoint: destructure the body, call the
    client, answer from the callback. *)
Definition bridge (w : world) (m : rpc_method) : handler := fun rq st =>
  match body rq with
  | None => Raise "Cannot destructure property of undefined" st
  | Some b =>
      let msg := pick (rpc_fields m) b in
      let st1 := record (Invoked m msg) st in
      match rpc w m msg with
      | RpcThrow e => Raise e st1
      | RpcError code err_message =>
          Stop (send (if (code =? NOT_FOUND)%Z then 404 else 500)
                     (message err_message) st1)
      | RpcReply response => Stop (send 201 (Json response) st1)
      | RpcSilent => Stop st1
      end
  end.

(** [app.get("/health")]: the text is the one the source file holds, a
    rocket emoji whose bytes went through a wrong decoding. *)
Definition health : handler := fun rq st =>
  Stop (send 200 (Text "API Gateway is running ðŸš€") st).

(** The global error handler. *)
Definition errorHandler (err : string) : handler := fun rq st =>
  Stop (if headersSent st then st
        else send 500 (message "Gateway internal error") st).

(** ** Dispatch *)

Inductive layer :=
| Use (mnt : option string) (h : handler)             (* app.use([mnt,] h) *)
| Verb (m : method) (path : string) (hs : list handler) (* app.get/post/patch(path, hs...) *)
| UseError (h : string -> handler).                   (* app.use((err, req, res, next) => ...) *)

(** a GET route also answers HEAD *)
Definition handles_method (route_method m : method) : bool :=
  method_eqb route_method m || (method_eqb route_method GET && method_eqb m HEAD).

(** the handlers of one route, one after the other *)
Fixpoint chain (hs : list handler) : handler := fun rq st =>
  match hs with
  | [] => Next rq st
  | h :: hs' =>
      match h rq st with
      | Next rq' st' => chain hs' rq' st'
      | Raise e st' => Raise e st'
      | Stop st' => Stop st'
      end
  end.

(** What the router does when the stack is exhausted: 404, or 500 for a
    pending error, unless a response has been started. *)
Definition finalhandler (err : option string) (st : state) : state :=
  if headersSent st then st
  else send (match err with None => 404 | Some _ => 500 end) ErrorPage st.

(** [router.handle]: walk the stack in registration order.  While an error
    is pending only error handlers run; otherwise only the layers that
    match the method and the path. *)
Fixpoint run (ls : list layer) (err : option string) (rq : request) (st : state)
  : state :=
  match ls with
  | [] => finalhandler err st
  | l :: ls' =>
      let continue := fun s =>
        match s with
        | Next rq' st' => run ls' None (with_url (url rq) rq') st'
        | Raise e st' => run ls' (Some e) rq st'
        | Stop st' => st'
        end in
      match err, l with
      | Some e, UseError h => continue (h e rq st)
      | Some _, _ => run ls' err rq st
      | None, UseError _ => run ls' None rq st
      | None, Use None h => continue (h rq st)
      | None, Use (Some mnt) h =>
          match Express.use_match mnt (pathname (url rq)) with
          | Some n => continue (h (with_url (Express.trim_prefix n (url rq)) rq) st)
          | None => run ls' None rq st
          end
      | None, Verb m p hs =>
          if handles_method m (req_method rq)
             && Express.route_match p (pathname (url rq))
          then continue (chain hs rq st)
          else run ls' None rq st
      end
  end.

Definition mounted (w : world) (r : proxy_rule) : layer :=
  Use (Some (mount r)) (proxy w r).

Definition bridged (w : world) (m : rpc_method) : layer :=
  Verb (endpoint_method m) (endpoint_path m)
       [express_json (endpoint_limit m); bridge w m].

(** The layers registered after the gate, in the order the module
    registers them. *)
Definition routes (w : world) : list layer :=
  [ mounted w auth_rule;
    bridged w BlogCreate;
    bridged w BlogPostComment;
    bridged w TourCreateTour;
    mounted w stakeholders_rule;
    mounted w blog_rule;
    mounted w tour_rule;
    mounted w tour_execution_rule;
    mounted w followers_rule;
    mounted w carts_rule;
    Verb GET "/health" [health];
    UseError errorHandler ].

Definition app (w : world) : list layer :=
  Use None (verifyJWT w) :: routes w.

Definition handle (w : world) (i : inbound) : state :=
  run (app w) None (receive i) fresh.

(** ** Start-up *)

Definition requiredEnv : list string :=
  [ "AUTH_SERVICE_URL"; "STAKEHOLDERS_SERVICE_URL"; "BLOG_SERVICE_URL";
    "TOUR_SERVICE_URL"; "FOLLOWERS_SERVICE_URL"; "PAYMENTS_SERVICE_URL" ].

(** [!process.env[key]]: unset, or set to the empty string *)
Definition unset (e : gmap string string) (key : string) : bool :=
  match e !! key with
  | None => true
  | Some v => String.eqb v ""
  end.

Definition missingVars (e : gmap string string) : list string :=
  List.filter (unset e) requiredEnv.

Inductive startup_result :=
| Exit (code : Z)                  (* logger.fatal(...); process.exit(code) *)
| Threw (err : string)             (* an exception while the module loads *)
| Listening (port : string).       (* app.listen(PORT) *)

(** [process.env.PORT || 8080] *)
Definition PORT (e : gmap string string) : string :=
  if unset e "PORT" then "8080" else default "8080" (e !! "PORT").

(** The module from top to bottom: the check of [requiredEnv], the two
    gRPC clients, [app.listen].  [construct] stands for the constructor of
    a client, [new Service(address, credentials)]: given the address read
    from the environment it returns the error it throws, if any. *)
Definition startup (construct : option string -> option string)
    (e : gmap string string) : startup_result :=
  if 0 <? length (missingVars e) then Exit 1
  else
    match construct (e !! "BLOG_SERVICE_GRPC_HOST") with
    | Some err => Threw err
    | None =>
        match construct (e !! "TOUR_SERVICE_GRPC_HOST") with
        | Some err => Threw err
        | None => Listening (PORT e)
        end
    end.

(** A client constructor that insists on an address, as the one of
    grpc-js does: it throws when the address is not a string, and when
    the string is empty. *)
Definition strict_client (address : option string) : option string :=
  match address with
  | None => Some "Channel target must be a string"
  | Some EmptyString => Some "Could not parse target name"
  | Some (String _ _) => None
  end.

(** Every variable the module reads besides [PORT]: the six base URLs of
    [requiredEnv], the addresses of the two gRPC clients and the secret
    [verifyJWT] checks signatures with. *)
Definition configuration : list string :=
  map service_url_key [Auth; Stakeholders; Blog; Tour; Followers; Payments]
  ++ [ rpc_host_key BlogCreate; rpc_host_key TourCreateTour; "JWT_SECRET" ].

(** The earlier variant of the gateway ([src/index.js]): five base URLs,
    checked one by one. *)
Module Earlier.

Definition requiredEnv : list string :=
  [ "AUTH_SERVICE_URL"; "STAKEHOLDERS_SERVICE_URL"; "BLOG_SERVICE_URL";
    "TOUR_SERVICE_URL"; "FOLLOWERS_SERVICE_URL" ].

(** [requiredEnv.forEach(key => { if (!process.env[key]) process.exit(1) })] *)
Fixpoint check (e : gmap string string) (keys : list string) : option Z :=
  match keys with
  | [] => None
  | key :: keys' => if unset e key then Some 1%Z else check e keys'
  end.

Definition startup (e : gmap string string) : startup_result :=
  match check e requiredEnv with
  | Some code => Exit code
  | None => Listening (if unset e "PORT" then "4000" else default "4000" (e !! "PORT"))
  end.

End Earlier.

(** ** Vocabulary of the statements *)

(** The request carries a bearer credential that verification accepts,
    with the given claims. *)
Definition valid_bearer (w : world) (i : inbound) (claims : json) : Prop :=
  exists authHeader token,
    in_authorization i = Some authHeader
    /\ Str.startsWith "Bearer " authHeader = true
    /\ token_of authHeader = Some token
    /\ jwt_verify w token (env w !! "JWT_SECRET") = Some claims.

(** The rest of a request target after a mount prefix is a sub-path: it
    starts with one slash, not two. *)
Definition subpath (rest : string) : bool :=
  Str.startsWith "/" rest && negb (Str.startsWith "//" rest).

(** The rest of a request target after a mount prefix when the request is
    for the bare prefix: nothing, or a query string. *)
Definition bare (rest : string) : bool :=
  String.eqb rest "" || Str.startsWith "?" rest.

(** The request matches a bridged endpoint. *)
Definition at_endpoint (m : rpc_method) (i : inbound) : bool :=
  handles_method (endpoint_method m) (in_method i)
  && Express.route_match (endpoint_path m) (pathname (in_target i)).

(** The gate has let the request through as [rq]: the layers after the
    gate decide the response. *)
Definition let_through (w : world) (i : inbound) (rq : request) : Prop :=
  handle w i = run (routes w) None rq fresh
  /\ url rq = in_target i /\ req_method rq = in_method i
  /\ payload rq = in_entity i /\ body rq = None
  /\ originalUrl rq = in_target i.

(** The routes no bridged endpoint shares a path with. *)
Definition plain_routes : list proxy_rule :=
  [ auth_rule; stakeholders_rule; tour_execution_rule; followers_rule; carts_rule ].

(** The first error layer of the stack is the global error handler. *)
Fixpoint guarded (ls : list layer) : Prop :=
  match ls with
  | [] => False
  | UseError h :: _ => h = errorHandler
  | _ :: ls' => guarded ls'
  end.

(** Where a step ends when nothing but the global error handler can
    follow it. *)
Definition settle (s : step) : state :=
  match s with
  | Next _ st => st
  | Raise _ st =>
      if headersSent st then st
      else send 500 (message "Gateway internal error") st
  | Stop st => st
  end.

(** names bound in the scope a callback of a route runs in *)
Definition bound_names (first : string) : list string :=
  map fst (Callback.enclosing ∅ [(first, Callback.VOpaque);
                                 ("req", Callback.VOpaque);
                                 ("res", Callback.VOpaque)]).

(** whether a callback body has a [try] statement *)
Definition uses_try (b : list Callback.stmt) : bool :=
  existsb (fun s => match s with Callback.Try _ => true | Callback.Plain _ => false end) b.

(** ** Sample worlds and requests

    A configuration with every variable set, one without the signing
    secret, and a few requests; the verifier of the sample world accepts
    the token [good] only. *)

Definition sample_env : gmap string string :=
  {[ "AUTH_SERVICE_URL" := "http://auth:3000";
     "STAKEHOLDERS_SERVICE_URL" := "http://stakeholders:3001";
     "BLOG_SERVICE_URL" := "http://blog:3002";
     "TOUR_SERVICE_URL" := "http://tour:3003";
     "FOLLOWERS_SERVICE_URL" := "http://followers:3004";
     "PAYMENTS_SERVICE_URL" := "http://payments:3005";
     "BLOG_SERVICE_GRPC_HOST" := "blog:50051";
     "TOUR_SERVICE_GRPC_HOST" := "tour:50052";
     "JWT_SECRET" := "s3cret" ]}.

Definition env_without_secret : gmap string string :=
  delete "JWT_SECRET" sample_env.

Definition sample_claims : json := JObj [("sub", JStr "u1")].

Definition sample_world (l : hpm) (r : rpc_outcome) (u : upstream_outcome) : world :=
  {| env := sample_env;
     jwt_verify := fun token secret =>
       if String.eqb token "good" then Some sample_claims else None;
     rpc := fun _ _ => r;
     upstream := fun _ _ _ => u;
     library := l;
     error_status := fun _ => 504 |}.

(** every backend answers; the proxy library is 3.x *)
Definition quiet_world : world :=
  sample_world Hpm3 (RpcReply (JObj [("id", JStr "1")])) (UpReply 200 "ok").

(** the same with a proxy library of the generation up to 2.x *)
Definition legacy_world : world :=
  sample_world Hpm2 (RpcReply (JObj [("id", JStr "1")])) (UpReply 200 "ok").

Definition sample_request (m : method) (target : string) (auth : option string)
  : inbound :=
  {| in_method := m; in_target := target; in_authorization := auth;
     in_entity := {| bytes := 2; content := Some (JObj []) |} |}.



(** ** The earlier variants

    [src/index.js] registers the gate, five of the proxies with the same
    options (it logs the same lines with [console.log]), the health probe
    and the error handler; it has no bridged endpoint and no
    tour-execution or carts route. *)

Module EarlierApp.

(** the health text of [src/index.js] ends in the rocket emoji itself *)
Definition health : handler := fun rq st =>
  Stop (send 200 (Text "API Gateway is running 🚀") st).

Definition routes (w : world) : list layer :=
  [ mounted w auth_rule;
    mounted w stakeholders_rule;
    mounted w blog_rule;
    mounted w tour_rule;
    mounted w followers_rule;
    Verb GET "/health" [health];
    UseError errorHandler ].

Definition app (w : world) : list layer :=
  Use None (verifyJWT w) :: routes w.

Definition handle (w : world) (i : inbound) : state :=
  run (app w) None (receive i) fresh.

End EarlierApp.

(** The first variant checks four base URLs, one by one like the second,
    and listens on [process.env.PORT || 8080]. *)
Module Legacy.

Definition requiredEnv : list string :=
  [ "AUTH_SERVICE_URL"; "STAKEHOLDERS_SERVICE_URL"; "BLOG_SERVICE_URL";
    "TOUR_SERVICE_URL" ].

Definition startup (e : gmap string string) : startup_result :=
  match Earlier.check e requiredEnv with
  | Some code => Exit code
  | None => Listening (PORT e)
  end.

End Legacy.

(** ** Vocabulary of the further statements *)

(** The response is the upstream's: relayed in full, or what had been
    relayed when the exchange failed. *)
Definition from_upstream (w : world) (x : response) : Prop :=
  exists s m p,
    (exists b, upstream w s m p = UpReply (status x) b /\ content_of x = Relayed b)
    \/ (exists err, upstream w s m p = UpError (Some x) err).

(** the response is one the upstream had started when the exchange
    failed, ended by the proxy library with its error text *)
Definition cut_short (w : world) (x : response) : Prop :=
  exists s m p x0 err,
    upstream w s m p = UpError (Some x0) err
    /\ x = {| status := status x0; content_of := Interrupted (content_of x0) |}.

(** a JSON body with a [message] string *)
Definition error_body (c : content_out) : Prop :=
  exists j s, c = Json j /\ prop "message" j = Some (JStr s).

(** the request matches none of the bridged endpoints *)
Definition off_bridge (i : inbound) : Prop :=
  forall m, at_endpoint m i = false.

(** the request has passed the gate: its target starts with [/auth], or it
    carries a credential that verifies *)
Definition admitted (w : world) (i : inbound) : Prop :=
  Str.startsWith "/auth" (in_target i) = true
  \/ exists claims, valid_bearer w i claims.

(** the request is the health probe *)
Definition health_probe (i : inbound) : bool :=
  handles_method GET (in_method i)
  && Express.route_match "/health" (pathname (in_target i)).

(** * Properties *)

#[local] Arguments Ascii.eqb : simpl nomatch.
#[local] Arguments String.eqb : simpl nomatch.

(** what the global error handler leaves behind *)
Local Abbreviation fallback st :=
  (if headersSent st then st
   else send 500 (message "Gateway internal error") st).

(** decide whether a layer matches from the lower-cased path *)
Ltac by_path HL :=
  unfold Express.use_match, Express.route_match; rewrite HL; reflexivity.


(** take every conditional of the goal apart *)
Ltac split_ifs :=
  repeat match goal with
         | |- context [if ?c then _ else _] => destruct c
         end.

(** ** The model on a few inputs *)

Example use_match_boundary :
  Express.use_match "/api/tour" "/api/tour-execution/7" = None
  /\ Express.use_match "/api/tour" "/api/tour/7" = Some 9
  /\ Express.use_match "/api/tour" "/API/Tour" = Some 9
  /\ Express.use_match "/api/tour" "/api/tour/" = Some 10.
Proof. repeat split. Qed.

Example trim_prefix_bare :
  Express.trim_prefix 5 "/auth?next=1" = "/?next=1"
  /\ Express.trim_prefix 5 "/auth/login" = "/login".
Proof. split; reflexivity. Qed.

Example split_bearer :
  Str.split " " "Bearer abc def" = ["Bearer"; "abc"; "def"]
  /\ token_of "Bearer abc def" = Some "abc"
  /\ token_of "Bearer " = Some "".
Proof. repeat split. Qed.

Example origin_form_targets :
  origin_form "/api/tour/3?full=1" = true
  /\ origin_form "http://gateway/health" = false
  /\ origin_form "/health#top" = false.
Proof. repeat split. Qed.

(** the health text is the nine bytes the source file holds after the
    last space *)
Example health_text_bytes :
  map nat_of_ascii
      (list_ascii_of_string (Str.slice 23 "API Gateway is running ðŸš€"))
  = [195; 176; 197; 184; 197; 161; 226; 130; 172].
Proof. reflexivity. Qed.

Example earlier_health_text_bytes :
  map nat_of_ascii
      (list_ascii_of_string (Str.slice 23 "API Gateway is running 🚀"))
  = [240; 159; 154; 128].
Proof. reflexivity. Qed.

Example health_with_token :
  handle quiet_world (sample_request GET "/health" (Some "Bearer good"))
  = send 200 (Text "API Gateway is running ðŸš€") fresh.
Proof. reflexivity. Qed.

Example unknown_path :
  handle quiet_world (sample_request GET "/nowhere" (Some "Bearer good"))
  = send 404 ErrorPage fresh.
Proof. reflexivity. Qed.

Example tour_array_body :
  pick ["author"; "length"] (JArr [JNull; JNull])
  = [("author", None); ("length", Some (JNum 2))].
Proof. reflexivity. Qed.

(** the two generations of the proxy library on one request *)
Example forwarding_by_release :
  trace (handle quiet_world (sample_request GET "/api/tour/3" (Some "Bearer good")))
  = [Proxied tour_rule GET "/api/tour/3"]
  /\ trace (handle legacy_world (sample_request GET "/api/tour/3" (Some "Bearer good")))
     = [Proxied tour_rule GET "/api/tour/api/tour/3"].
Proof. split; reflexivity. Qed.

(** ** Strings *)

Section StringFacts.

Lemma append_cons (c : ascii) (a b : string) :
  String c a +:+ b = String c (a +:+ b).
Proof. reflexivity. Qed.

Lemma append_nil_l (b : string) : "" +:+ b = b.
Proof. reflexivity. Qed.

Lemma append_nil_r (s : string) : s +:+ "" = s.
Proof.
  induction s as [|c s IH]; [reflexivity|].
  now rewrite append_cons, IH.
Qed.

Lemma append_assoc (a b c : string) : (a +:+ b) +:+ c = a +:+ (b +:+ c).
Proof.
  induction a as [|x a IH]; [reflexivity|].
  now rewrite !append_cons, IH.
Qed.

Lemma strip_app (a b : string) : Str.strip a (a +:+ b) = Some b.
Proof.
  induction a as [|x a IH]; [reflexivity|].
  rewrite append_cons; simpl. now rewrite Ascii.eqb_refl.
Qed.

Lemma strip_Some (a s r : string) : Str.strip a s = Some r -> s = a +:+ r.
Proof.
  revert s; induction a as [|x a IH]; intros s H; simpl in *.
  - now inversion H.
  - destruct s as [|y s]; [discriminate|].
    destruct (Ascii.eqb x y) eqn:E; [|discriminate].
    apply Ascii.eqb_eq in E; subst y.
    rewrite append_cons. f_equal. now apply IH.
Qed.

Lemma startsWith_app (a b : string) : Str.startsWith a (a +:+ b) = true.
Proof.
  induction a as [|x a IH]; [reflexivity|].
  rewrite append_cons; simpl. now rewrite Ascii.eqb_refl.
Qed.

Lemma startsWith_inv (a s : string) :
  Str.startsWith a s = true -> exists r, s = a +:+ r.
Proof.
  revert s; induction a as [|x a IH]; intros s H; simpl in *.
  - now exists s.
  - destruct s as [|y s]; [discriminate|].
    destruct (Ascii.eqb x y) eqn:E; [|discriminate].
    apply Ascii.eqb_eq in E; subst y.
    destruct (IH _ H) as [r ->]. now exists r.
Qed.

Lemma slice_app (a b : string) : Str.slice (String.length a) (a +:+ b) = b.
Proof.
  induction a as [|x a IH]; [reflexivity|].
  rewrite append_cons; simpl. exact IH.
Qed.

Lemma slice_S_app (a b : string) (c : ascii) :
  Str.slice (S (String.length a)) (a +:+ String c b) = b.
Proof.
  induction a as [|x a IH]; [reflexivity|].
  rewrite append_cons. exact IH.
Qed.

Lemma lower_app (a b : string) :
  Str.lower (a +:+ b) = Str.lower a +:+ Str.lower b.
Proof.
  induction a as [|x a IH]; [reflexivity|].
  rewrite append_cons; simpl. now rewrite IH.
Qed.

Lemma lower_ascii_slash (c : ascii) :
  Ascii.eqb (Str.lower_ascii c) "/" = Ascii.eqb c "/".
Proof.
  destruct c as [[] [] [] [] [] [] [] []]; reflexivity.
Qed.

Lemma startsWith_lower (p s : string) :
  Str.startsWith p s = true -> Str.startsWith (Str.lower p) (Str.lower s) = true.
Proof.
  revert s; induction p as [|x p IH]; intros s H; simpl in *; [reflexivity|].
  destruct s as [|y s]; [discriminate|]. simpl.
  destruct (Ascii.eqb x y) eqn:E; [|discriminate].
  apply Ascii.eqb_eq in E; subst y. rewrite Ascii.eqb_refl. now apply IH.
Qed.

(** A prefix without a question mark is a prefix of the target exactly
    when it is a prefix of its path. *)
Lemma startsWith_pathname (p url : string) :
  Str.before "?" p = p ->
  Str.startsWith p (pathname url) = Str.startsWith p url.
Proof.
  unfold pathname. revert url; induction p as [|x p IH]; intros url Hp; simpl in *.
  - reflexivity.
  - destruct (Ascii.eqb x "?") eqn:Ex; [discriminate|].
    injection Hp as Hp.
    destruct url as [|y url]; simpl; [reflexivity|].
    destruct (Ascii.eqb y "?") eqn:Ey.
    + apply Ascii.eqb_eq in Ey; subst y. now rewrite Ex.
    + simpl. destruct (Ascii.eqb x y); [now apply IH | reflexivity].
Qed.

Lemma pathname_app (p rest : string) :
  Str.before "?" p = p -> pathname (p +:+ rest) = p +:+ pathname rest.
Proof.
  unfold pathname. induction p as [|x p IH]; intros Hp; [reflexivity|].
  rewrite !append_cons. simpl in *.
  destruct (Ascii.eqb x "?") eqn:Ex; [discriminate|].
  injection Hp as Hp. now rewrite IH.
Qed.

(** The target is its path followed by its query string. *)
Lemma target_split (url : string) :
  url = pathname url +:+ Str.from "?" url
  /\ bare (Str.from "?" url) = true.
Proof.
  unfold pathname, bare. induction url as [|c url [IH1 IH2]]; simpl.
  - split; reflexivity.
  - destruct (Ascii.eqb c "?") eqn:E.
    + apply Ascii.eqb_eq in E; subst c. split; reflexivity.
    + rewrite append_cons. split; [now rewrite <- IH1 | exact IH2].
Qed.

End StringFacts.

(** ** Mount points *)

Section MountFacts.

Lemma lower_nil_inv (s : string) : Str.lower s = "" -> s = "".
Proof. destruct s; [reflexivity | discriminate]. Qed.

Lemma pathname_nil_bare (s : string) : pathname s = "" -> bare s = true.
Proof.
  unfold pathname, bare. destruct s as [|c s]; [reflexivity|]. simpl.
  destruct (Ascii.eqb c "?") eqn:E; [|intros H; discriminate H].
  intros _. apply Ascii.eqb_eq in E; subst c. reflexivity.
Qed.

Lemma bare_pathname (s : string) : bare s = true -> pathname s = "".
Proof.
  unfold pathname, bare. destruct s as [|c s]; [reflexivity|]. simpl.
  destruct (Ascii.eqb "?" c) eqn:E; [|intros H; discriminate H].
  apply Ascii.eqb_eq in E; subst c. reflexivity.
Qed.

Lemma bare_no_slash (s : string) : bare s = true -> Str.startsWith "/" s = false.
Proof.
  unfold bare. destruct s as [|c s]; [reflexivity|]. simpl.
  destruct (Ascii.eqb "?" c) eqn:E; [|intros H; discriminate H].
  apply Ascii.eqb_eq in E; subst c. reflexivity.
Qed.

(** A request for the bare mount point: the layer matches, and the
    handler sees a slash in front of what follows the prefix. *)
Lemma use_match_bare (mnt rest : string) :
  Str.before "?" mnt = mnt -> bare rest = true ->
  Express.use_match mnt (pathname (mnt +:+ rest)) = Some (String.length mnt)
  /\ Express.trim_prefix (String.length mnt) (mnt +:+ rest) = "/" +:+ rest.
Proof.
  intros Hm Hb. rewrite pathname_app by exact Hm.
  rewrite (bare_pathname _ Hb), append_nil_r. split.
  - unfold Express.use_match.
    rewrite <- (append_nil_r (Str.lower mnt)) at 2. now rewrite strip_app.
  - unfold Express.trim_prefix. rewrite slice_app.
    now rewrite (bare_no_slash _ Hb).
Qed.

(** A request for a sub-path of the mount point: the layer matches, and
    the handler sees exactly what follows the prefix. *)
Lemma use_match_subpath (mnt rest : string) :
  Str.before "?" mnt = mnt -> subpath rest = true ->
  exists n,
    Express.use_match mnt (pathname (mnt +:+ rest)) = Some n
    /\ Express.trim_prefix n (mnt +:+ rest) = rest.
Proof.
  intros Hm Hs. rewrite pathname_app by exact Hm.
  unfold Express.use_match. rewrite lower_app, strip_app.
  unfold subpath in Hs. apply andb_true_iff in Hs as [H1 H2].
  destruct rest as [|c rest]; [discriminate|]. simpl in H1.
  destruct (Ascii.eqb "/" c) eqn:Ec; [|discriminate].
  apply Ascii.eqb_eq in Ec; subst c.
  change (pathname (String "/" rest)) with (String "/" (pathname rest)).
  change (Str.lower (String "/" (pathname rest)))
    with (String "/" (Str.lower (pathname rest))).
  change (Ascii.eqb "/" "/") with true. cbv iota.
  destruct (Str.lower (pathname rest)) as [|c' l'] eqn:El.
  - exists (S (String.length mnt)). split; [reflexivity|].
    unfold Express.trim_prefix. rewrite slice_S_app.
    apply lower_nil_inv in El. apply pathname_nil_bare in El.
    now rewrite (bare_no_slash _ El).
  - destruct rest as [|c0 rest0]; [discriminate|].
    simpl in H2. apply negb_true_iff in H2.
    unfold pathname in El. simpl in El.
    destruct (Ascii.eqb c0 "?"); [discriminate|]. simpl in El.
    injection El as Ec' _. subst c'.
    rewrite lower_ascii_slash, (Ascii.eqb_sym c0 "/").
    destruct (Ascii.eqb "/" c0); [discriminate|].
    exists (String.length mnt). split; [reflexivity|].
    unfold Express.trim_prefix. now rewrite slice_app.
Qed.

End MountFacts.

(** ** Stepping through the stack *)

Section Stepping.

Variable w : world.

Lemma run_use mnt h ls rq st :
  run (Use (Some mnt) h :: ls) None rq st =
  match Express.use_match mnt (pathname (url rq)) with
  | Some n =>
      match h (with_url (Express.trim_prefix n (url rq)) rq) st with
      | Next rq' st' => run ls None (with_url (url rq) rq') st'
      | Raise e st' => run ls (Some e) rq st'
      | Stop st' => st'
      end
  | None => run ls None rq st
  end.
Proof. reflexivity. Qed.

Lemma run_verb m p hs ls rq st :
  run (Verb m p hs :: ls) None rq st =
  if handles_method m (req_method rq) && Express.route_match p (pathname (url rq))
  then match chain hs rq st with
       | Next rq' st' => run ls None (with_url (url rq) rq') st'
       | Raise e st' => run ls (Some e) rq st'
       | Stop st' => st'
       end
  else run ls None rq st.
Proof. reflexivity. Qed.

Lemma run_use_all h ls rq st :
  run (Use None h :: ls) None rq st =
  match h rq st with
  | Next rq' st' => run ls None (with_url (url rq) rq') st'
  | Raise e st' => run ls (Some e) rq st'
  | Stop st' => st'
  end.
Proof. reflexivity. Qed.

Lemma run_use_miss mnt h ls rq st :
  Express.use_match mnt (pathname (url rq)) = None ->
  run (Use (Some mnt) h :: ls) None rq st = run ls None rq st.
Proof. intros H. now rewrite run_use, H. Qed.

Lemma run_use_hit mnt h ls rq st n :
  Express.use_match mnt (pathname (url rq)) = Some n ->
  run (Use (Some mnt) h :: ls) None rq st =
  match h (with_url (Express.trim_prefix n (url rq)) rq) st with
  | Next rq' st' => run ls None (with_url (url rq) rq') st'
  | Raise e st' => run ls (Some e) rq st'
  | Stop st' => st'
  end.
Proof. intros H. now rewrite run_use, H. Qed.

Lemma run_verb_miss m p hs ls rq st :
  Express.route_match p (pathname (url rq)) = false ->
  run (Verb m p hs :: ls) None rq st = run ls None rq st.
Proof. intros H. now rewrite run_verb, H, andb_false_r. Qed.

Lemma run_verb_hit m p hs ls rq st :
  handles_method m (req_method rq) = true ->
  Express.route_match p (pathname (url rq)) = true ->
  run (Verb m p hs :: ls) None rq st =
  match chain hs rq st with
  | Next rq' st' => run ls None (with_url (url rq) rq') st'
  | Raise e st' => run ls (Some e) rq st'
  | Stop st' => st'
  end.
Proof. intros H1 H2. now rewrite run_verb, H1, H2. Qed.

(** Once an error is pending, the rest of a guarded stack does what the
    global error handler does. *)
Lemma run_pending ls e rq st :
  guarded ls -> run ls (Some e) rq st = fallback st.
Proof.
  induction ls as [|l ls IH]; intros G; [destruct G|].
  destruct l as [mnt h | m p hs | h]; simpl in *.
  - now apply IH.
  - now apply IH.
  - subst h. reflexivity.
Qed.


End Stepping.

(** ** The authentication gate *)

Section Gate.

Variable w : world.

Lemma verifyJWT_bypass i :
  Str.startsWith "/auth" (in_target i) = true ->
  verifyJWT w (receive i) fresh = Next (receive i) fresh.
Proof.
  intros H. unfold verifyJWT.
  change (originalUrl (receive i)) with (in_target i). now rewrite H.
Qed.

Lemma verifyJWT_pass i claims :
  Str.startsWith "/auth" (in_target i) = false ->
  valid_bearer w i claims ->
  verifyJWT w (receive i) fresh = Next (with_user claims (receive i)) fresh.
Proof.
  intros H (h & t & Hh & Hb & Ht & Hv). unfold verifyJWT.
  change (originalUrl (receive i)) with (in_target i). rewrite H.
  change (authorization (receive i)) with (in_authorization i). rewrite Hh, Hb.
  destruct (String.eqb h "") eqn:E.
  { apply String.eqb_eq in E; subst h. discriminate. }
  simpl. rewrite Ht. simpl. now rewrite Hv.
Qed.

Lemma gate_bypass i :
  Str.startsWith "/auth" (in_target i) = true ->
  handle w i = run (routes w) None (receive i) fresh.
Proof.
  intros H. unfold handle, app.
  rewrite run_use_all, verifyJWT_bypass by exact H. reflexivity.
Qed.

Lemma gate_pass i claims :
  Str.startsWith "/auth" (in_target i) = false ->
  valid_bearer w i claims ->
  handle w i = run (routes w) None (with_user claims (receive i)) fresh.
Proof.
  intros H Hc. unfold handle, app.
  rewrite run_use_all, (verifyJWT_pass i claims H Hc). reflexivity.
Qed.

Lemma verifyJWT_401 i :
  Str.startsWith "/auth" (in_target i) = false ->
  (in_authorization i = None
   \/ exists h, in_authorization i = Some h /\ Str.startsWith "Bearer " h = false) ->
  verifyJWT w (receive i) fresh = Stop (send 401 (message "No token provided") fresh).
Proof.
  intros H Hh. unfold verifyJWT.
  change (originalUrl (receive i)) with (in_target i). rewrite H.
  change (authorization (receive i)) with (in_authorization i).
  destruct Hh as [-> | (h & -> & Hb)]; [reflexivity|].
  rewrite Hb. now rewrite orb_true_r.
Qed.

Lemma verifyJWT_403 i h :
  Str.startsWith "/auth" (in_target i) = false ->
  in_authorization i = Some h ->
  Str.startsWith "Bearer " h = true ->
  (forall t, token_of h = Some t -> jwt_verify w t (env w !! "JWT_SECRET") = None) ->
  verifyJWT w (receive i) fresh
  = Stop (send 403 (message "Invalid or expired token") fresh).
Proof.
  intros H Hh Hb Hv. unfold verifyJWT.
  change (originalUrl (receive i)) with (in_target i). rewrite H.
  change (authorization (receive i)) with (in_authorization i). rewrite Hh, Hb.
  destruct (String.eqb h "") eqn:E.
  { apply String.eqb_eq in E; subst h. discriminate. }
  simpl. destruct (token_of h) as [t|] eqn:Et; simpl; [|reflexivity].
  now rewrite (Hv t eq_refl).
Qed.

Lemma gate_401 i :
  Str.startsWith "/auth" (in_target i) = false ->
  (in_authorization i = None
   \/ exists h, in_authorization i = Some h /\ Str.startsWith "Bearer " h = false) ->
  handle w i = send 401 (message "No token provided") fresh.
Proof.
  intros H Hh. unfold handle, app.
  rewrite run_use_all, (verifyJWT_401 i H Hh). reflexivity.
Qed.

Lemma gate_403 i h :
  Str.startsWith "/auth" (in_target i) = false ->
  in_authorization i = Some h ->
  Str.startsWith "Bearer " h = true ->
  (forall t, token_of h = Some t -> jwt_verify w t (env w !! "JWT_SECRET") = None) ->
  handle w i = send 403 (message "Invalid or expired token") fresh.
Proof.
  intros H Hh Hb Hv. unfold handle, app.
  rewrite run_use_all, (verifyJWT_403 i h H Hh Hb Hv). reflexivity.
Qed.

(** Without a credential that verifies, a request outside [/auth] is
    answered by the gate. *)
Lemma gate_rejects i :
  Str.startsWith "/auth" (in_target i) = false ->
  (forall claims, ~ valid_bearer w i claims) ->
  handle w i = send 401 (message "No token provided") fresh
  \/ handle w i = send 403 (message "Invalid or expired token") fresh.
Proof.
  intros H Hno.
  destruct (in_authorization i) as [h|] eqn:Hh.
  - destruct (Str.startsWith "Bearer " h) eqn:Hb.
    + right. apply (gate_403 i h H Hh Hb).
      intros t Ht. destruct (jwt_verify w t (env w !! "JWT_SECRET")) as [c|] eqn:Hv;
        [|reflexivity].
      exfalso. apply (Hno c). now exists h, t.
    + left. apply gate_401; [exact H|]. right. now exists h.
  - left. apply gate_401; [exact H|]. now left.
Qed.

(** The gate answers 401 or 403, or lets the request through as
    received, possibly with a principal attached. *)
Lemma gate_cases i :
  handle w i = send 401 (message "No token provided") fresh
  \/ handle w i = send 403 (message "Invalid or expired token") fresh
  \/ exists rq, let_through w i rq.
Proof.
  destruct (Str.startsWith "/auth" (in_target i)) eqn:H.
  - right; right. exists (receive i). split; [now apply gate_bypass|].
    repeat split.
  - destruct (in_authorization i) as [h|] eqn:Hh.
    + destruct (Str.startsWith "Bearer " h) eqn:Hb.
      * destruct (token_of h) as [t|] eqn:Ht.
        -- destruct (jwt_verify w t (env w !! "JWT_SECRET")) as [c|] eqn:Hv.
           ++ right; right. exists (with_user c (receive i)). split.
              ** apply gate_pass; [exact H|]. now exists h, t.
              ** repeat split.
           ++ right; left. apply (gate_403 i h H Hh Hb).
              intros t' Ht'. congruence.
        -- right; left. apply (gate_403 i h H Hh Hb). intros t' Ht'. congruence.
      * left. apply gate_401; [exact H|]. right. now exists h.
    + left. apply gate_401; [exact H|]. now left.
Qed.

End Gate.

(** ** The logging callbacks *)

Section Callbacks.

Import Callback.

Lemma try_completes sc out block :
  exists out', run sc out [Try block] = Done out'.
Proof.
  simpl. destruct (run_simple sc out block) as [[sc' out']|]; eexists; reflexivity.
Qed.

Lemma log_forwarding_completes e s a req res :
  exists lines, call e "proxyReq" (log_forwarding s) a req res = Done lines.
Proof. apply try_completes. Qed.

Lemma log_response_completes e s gs fs res :
  exists lines,
    call e "proxyRes" (log_response s) (VObj gs) (VObj fs) res = Done lines.
Proof. eexists. reflexivity. Qed.

Variable w : world.

(** Whatever the release of the proxy library, an exchange gets past the
    callbacks of every route but the tour-execution one. *)
Lemma callbacks_pass r rq :
  In r route_table ->
  (library w = Hpm2 -> r <> tour_execution_rule) ->
  (forall path, passes_onProxyReq w r rq path = true)
  /\ (forall code, passes_onProxyRes w r rq code = true).
Proof.
  intros Hr Hne. unfold passes_onProxyReq, passes_onProxyRes.
  destruct (library w); [|split; reflexivity].
  specialize (Hne eq_refl). simpl in Hr.
  decompose [or] Hr; try contradiction; subst r; try (now contradiction Hne);
    (split;
     [ intros path;
       match goal with
       | |- completes (call ?e ?f (onProxyReq ?r) ?a ?q ?s) = true =>
           destruct (log_forwarding_completes e (target r) a q s) as [l El];
           change (onProxyReq r) with (log_forwarding (target r));
           rewrite El; reflexivity
       end
     | intros code; reflexivity ]).
Qed.

(** Up to 2.x the exchange of the tour-execution route stops at its
    first callback. *)
Lemma tour_execution_stops rq path :
  library w = Hpm2 ->
  passes_onProxyReq w tour_execution_rule rq path = false.
Proof. intros H. unfold passes_onProxyReq. rewrite H. reflexivity. Qed.

End Callbacks.

(** ** What a matching layer makes of a request *)

Section Layers.

Variable w : world.

Lemma proxy_hit r rq0 rq st ls :
  guarded ls ->
  match proxy w r rq st with
  | Next rq' st' => run ls None (with_url (url rq0) rq') st'
  | Raise e st' => run ls (Some e) rq0 st'
  | Stop st' => st'
  end
  = settle (proxy w r rq st).
Proof.
  intros G. unfold proxy, settle. cbv zeta.
  destruct (upstream w (target r) (req_method rq)
              (apply_rewrite (pathRewrite r) (handed (library w) rq)))
    as [c b | [p|] m | e];
    try (now apply run_pending);
    match goal with
    | |- context [if ?c then Stop _ else Stop _] => destruct c
    end; reflexivity.
Qed.

Lemma proxy_trace r rq st :
  trace (settle (proxy w r rq st))
  = trace st ++ [Proxied r (req_method rq)
                   (apply_rewrite (pathRewrite r) (handed (library w) rq))].
Proof.
  unfold proxy, settle, failed, onError. cbv zeta.
  destruct (upstream w (target r) (req_method rq)
              (apply_rewrite (pathRewrite r) (handed (library w) rq)))
    as [c b | [p|] m | e];
    try match goal with
        | |- context [if ?c then Stop _ else Stop _] => destruct c
        end;
    try reflexivity;
    destruct (library w); split_ifs; reflexivity.
Qed.

Lemma proxy_hit_trace r rq0 rq st ls :
  guarded ls ->
  trace (match proxy w r rq st with
         | Next rq' st' => run ls None (with_url (url rq0) rq') st'
         | Raise e st' => run ls (Some e) rq0 st'
         | Stop st' => st'
         end)
  = trace st ++ [Proxied r (req_method rq)
                   (apply_rewrite (pathRewrite r) (handed (library w) rq))].
Proof. intros G. rewrite proxy_hit by exact G. apply proxy_trace. Qed.

(** A proxy whose callbacks do not stop the exchange writes one response. *)
Lemma proxy_one r rq st :
  sent st = [] ->
  (forall path, passes_onProxyReq w r rq path = true) ->
  (forall code, passes_onProxyRes w r rq code = true) ->
  exists x, sent (settle (proxy w r rq st)) = [x].
Proof.
  intros Hs Hq Hr. unfold proxy, settle. cbv zeta.
  destruct st as [s t]; simpl in Hs; subst s.
  destruct (upstream w (target r) (req_method rq)
              (apply_rewrite (pathRewrite r) (handed (library w) rq)))
    as [c b | [p|] m | e];
    rewrite ?Hq, ?Hr; cbv [andb]; unfold failed, onError;
    try destruct (library w); eexists; reflexivity.
Qed.


Lemma bridge_hit m rq0 rq st ls :
  guarded ls ->
  match chain [express_json (endpoint_limit m); bridge w m] rq st with
  | Next rq' st' => run ls None (with_url (url rq0) rq') st'
  | Raise e st' => run ls (Some e) rq0 st'
  | Stop st' => st'
  end
  = if (endpoint_limit m <? bytes (payload rq))%N then fallback st
    else match content (payload rq) with
         | None => fallback st
         | Some b =>
             let msg := pick (rpc_fields m) b in
             let st1 := record (Invoked m msg) st in
             match rpc w m msg with
             | RpcThrow e => fallback st1
             | RpcError code err_message =>
                 send (if (code =? NOT_FOUND)%Z then 404 else 500)
                      (message err_message) st1
             | RpcReply response => send 201 (Json response) st1
             | RpcSilent => st1
             end
         end.
Proof.
  intros G. unfold chain, express_json.
  destruct (endpoint_limit m <? bytes (payload rq))%N; [now apply run_pending|].
  destruct (content (payload rq)) as [b|]; [|now apply run_pending].
  unfold bridge. change (body (with_body b rq)) with (Some b).
  cbv beta iota zeta.
  destruct (rpc w m (pick (rpc_fields m) b)) as [r | code em | e |].
  - reflexivity.
  - reflexivity.
  - now apply run_pending.
  - reflexivity.
Qed.


(** If a call shows in the trace of a bridged endpoint, the endpoint
    answered from the outcome of that call. *)
Lemma bridge_hit_invoked m' rq0 rq ls m msg :
  guarded ls ->
  In (Invoked m msg)
     (trace (match chain [express_json (endpoint_limit m'); bridge w m'] rq fresh with
             | Next rq' st' => run ls None (with_url (url rq0) rq') st'
             | Raise e st' => run ls (Some e) rq0 st'
             | Stop st' => st'
             end)) ->
  match chain [express_json (endpoint_limit m'); bridge w m'] rq fresh with
  | Next rq' st' => run ls None (with_url (url rq0) rq') st'
  | Raise e st' => run ls (Some e) rq0 st'
  | Stop st' => st'
  end
  = let st1 := record (Invoked m msg) fresh in
    match rpc w m msg with
    | RpcThrow e => send 500 (message "Gateway internal error") st1
    | RpcError code err_message =>
        send (if (code =? NOT_FOUND)%Z then 404 else 500) (message err_message) st1
    | RpcReply response => send 201 (Json response) st1
    | RpcSilent => st1
    end.
Proof.
  intros G. rewrite bridge_hit by exact G.
  destruct (endpoint_limit m' <? bytes (payload rq))%N; [intros []|].
  destruct (content (payload rq)) as [b|]; [|intros []].
  cbv zeta.
  destruct (rpc w m' (pick (rpc_fields m') b)) as [r | code em | e |] eqn:E;
    (intros [H | []]; injection H as <- <-; rewrite E; reflexivity).
Qed.

End Layers.

(** ** Routing after the gate *)

Section Endpoints.

Variable w : world.

Lemma route_match_lower p path :
  Express.route_match p path = true ->
  Str.lower path = Str.lower p \/ Str.lower path = Str.lower p +:+ "/".
Proof.
  unfold Express.route_match.
  destruct (Str.strip (Str.lower p) (Str.lower path)) as [rest|] eqn:E;
    [|intros H; discriminate H].
  apply strip_Some in E. intros H. apply orb_true_iff in H as [H|H];
    apply String.eqb_eq in H; subst rest.
  - left. now rewrite append_nil_r in E.
  - now right.
Qed.

(** The paths of the bridged endpoints are outside the prefix the gate
    lets through unchecked. *)
Lemma endpoint_not_auth m i :
  at_endpoint m i = true -> Str.startsWith "/auth" (in_target i) = false.
Proof.
  unfold at_endpoint. intros H. apply andb_true_iff in H as [_ H].
  apply route_match_lower in H.
  destruct (Str.startsWith "/auth" (in_target i)) eqn:Ha; [|reflexivity].
  rewrite <- (startsWith_pathname "/auth" _ eq_refl) in Ha.
  apply startsWith_lower in Ha.
  destruct m, H as [H|H]; rewrite H in Ha; discriminate Ha.
Qed.

(** A request that matches a bridged endpoint is handled by it: the three
    routes are registered before every proxy that could take their paths,
    and the [/auth] proxy does not match them. *)
Lemma routes_bridged m rq st :
  handles_method (endpoint_method m) (req_method rq) = true ->
  Express.route_match (endpoint_path m) (pathname (url rq)) = true ->
  run (routes w) None rq st
  = if (endpoint_limit m <? bytes (payload rq))%N then fallback st
    else match content (payload rq) with
         | None => fallback st
         | Some b =>
             let msg := pick (rpc_fields m) b in
             let st1 := record (Invoked m msg) st in
             match rpc w m msg with
             | RpcThrow e => fallback st1
             | RpcError code err_message =>
                 send (if (code =? NOT_FOUND)%Z then 404 else 500)
                      (message err_message) st1
             | RpcReply response => send 201 (Json response) st1
             | RpcSilent => st1
             end
         end.
Proof.
  intros Hm Hp. pose proof (route_match_lower _ _ Hp) as HL.
  unfold routes, mounted, bridged.
  destruct m, HL as [HL|HL];
    rewrite run_use_miss by (by_path HL);
    repeat (rewrite run_verb_miss by (by_path HL));
    rewrite run_verb_hit by assumption;
    apply (bridge_hit w _ rq rq st); exact eq_refl.
Qed.

(** The request at a bridged endpoint that has a credential and a body
    the parser accepts: one call, answered from its outcome. *)
Lemma bridged_request m i claims b :
  at_endpoint m i = true ->
  valid_bearer w i claims ->
  (bytes (in_entity i) <= endpoint_limit m)%N ->
  content (in_entity i) = Some b ->
  handle w i
  = let msg := pick (rpc_fields m) b in
    let st1 := record (Invoked m msg) fresh in
    match rpc w m msg with
    | RpcThrow e => send 500 (message "Gateway internal error") st1
    | RpcError code em =>
        send (if (code =? NOT_FOUND)%Z then 404 else 500) (message em) st1
    | RpcReply r => send 201 (Json r) st1
    | RpcSilent => st1
    end.
Proof.
  intros He Hc Hb Hj.
  pose proof (endpoint_not_auth m i He) as Ha.
  unfold at_endpoint in He. apply andb_true_iff in He as [Hm Hp].
  rewrite (gate_pass w i claims Ha Hc).
  rewrite (routes_bridged m) by assumption.
  change (payload (with_user claims (receive i))) with (in_entity i).
  rewrite Hj. apply N.ltb_ge in Hb. rewrite Hb. reflexivity.
Qed.


(** [GET /health] past the gate. *)
Lemma routes_health rq st :
  req_method rq = GET -> pathname (url rq) = "/health" ->
  run (routes w) None rq st = send 200 (Text "API Gateway is running ðŸš€") st.
Proof.
  intros Hm Hp.
  assert (HL : Str.lower (pathname (url rq)) = "/health") by now rewrite Hp.
  unfold routes, mounted, bridged.
  rewrite run_use_miss by (by_path HL).
  do 3 (rewrite run_verb_miss by (by_path HL)).
  do 6 (rewrite run_use_miss by (by_path HL)).
  rewrite run_verb_hit; [reflexivity | now rewrite Hm | by_path HL].
Qed.



(** A call in the trace was made by a bridged endpoint, which answered
    from its outcome. *)
Lemma routes_invoked rq m msg :
  In (Invoked m msg) (trace (run (routes w) None rq fresh)) ->
  run (routes w) None rq fresh
  = let st1 := record (Invoked m msg) fresh in
    match rpc w m msg with
    | RpcThrow e => send 500 (message "Gateway internal error") st1
    | RpcError code err_message =>
        send (if (code =? NOT_FOUND)%Z then 404 else 500) (message err_message) st1
    | RpcReply response => send 201 (Json response) st1
    | RpcSilent => st1
    end.
Proof.
  unfold routes, mounted, bridged.
  rewrite run_use.
  destruct (Express.use_match _ _);
    [rewrite proxy_hit_trace by exact eq_refl; intros [H | []]; discriminate H|].
  do 3 (rewrite run_verb;
        match goal with |- context [if ?c then _ else _] => destruct c end;
        [now apply bridge_hit_invoked|]).
  do 6 (rewrite run_use;
        destruct (Express.use_match _ _);
        [rewrite proxy_hit_trace by exact eq_refl; intros [H | []]; discriminate H|]).
  rewrite run_verb.
  match goal with |- context [if ?c then _ else _] => destruct c end;
    intros [].
Qed.

(** No layer matches: the router's final handler answers. *)
Lemma routes_none rq st :
  (forall r, In r route_table ->
             Express.use_match (mount r) (pathname (url rq)) = None) ->
  (forall m, handles_method (endpoint_method m) (req_method rq)
             && Express.route_match (endpoint_path m) (pathname (url rq)) = false) ->
  handles_method GET (req_method rq)
  && Express.route_match "/health" (pathname (url rq)) = false ->
  run (routes w) None rq st = finalhandler None st.
Proof.
  intros Hr Hoff Hh. unfold routes, mounted, bridged.
  rewrite run_use_miss by (apply Hr; simpl; tauto).
  do 3 (rewrite run_verb, Hoff).
  do 6 (rewrite run_use_miss by (apply Hr; simpl; tauto)).
  rewrite run_verb, Hh. reflexivity.
Qed.

End Endpoints.

(** ** Proxied routes *)

Section Proxies.

Variable w : world.

(** A request under the mount point of one of these routes goes to its
    proxy, with the mount prefix taken off [req.url]. *)
Lemma routes_mounted r rq st rest n :
  In r plain_routes ->
  url rq = mount r +:+ rest ->
  Express.use_match (mount r) (pathname (url rq)) = Some n ->
  run (routes w) None rq st
  = settle (proxy w r (with_url (Express.trim_prefix n (url rq)) rq) st).
Proof.
  intros Hr Hu Hn.
  assert (HL : Str.lower (pathname (url rq))
               = Str.lower (mount r) +:+ Str.lower (pathname rest)).
  { rewrite Hu, pathname_app, lower_app; [reflexivity|].
    simpl in Hr. decompose [or] Hr; subst; try reflexivity; contradiction. }
  unfold routes, mounted, bridged.
  simpl in Hr. decompose [or] Hr; try contradiction; subst r.
  - rewrite (run_use_hit _ _ _ _ _ n Hn). now apply proxy_hit.
  - rewrite run_use_miss by (by_path HL).
    do 3 (rewrite run_verb_miss by (by_path HL)).
    rewrite (run_use_hit _ _ _ _ _ n Hn). now apply proxy_hit.
  - rewrite run_use_miss by (by_path HL).
    do 3 (rewrite run_verb_miss by (by_path HL)).
    do 3 (rewrite run_use_miss by (by_path HL)).
    rewrite (run_use_hit _ _ _ _ _ n Hn). now apply proxy_hit.
  - rewrite run_use_miss by (by_path HL).
    do 3 (rewrite run_verb_miss by (by_path HL)).
    do 4 (rewrite run_use_miss by (by_path HL)).
    rewrite (run_use_hit _ _ _ _ _ n Hn). now apply proxy_hit.
  - rewrite run_use_miss by (by_path HL).
    do 3 (rewrite run_verb_miss by (by_path HL)).
    do 5 (rewrite run_use_miss by (by_path HL)).
    rewrite (run_use_hit _ _ _ _ _ n Hn). now apply proxy_hit.
Qed.

(** The [/api/blog] and [/api/tour] proxies take what the bridged
    endpoints registered before them leave. *)
Lemma routes_shared r rq st rest n :
  In r [blog_rule; tour_rule] ->
  url rq = mount r +:+ rest ->
  (forall m, handles_method (endpoint_method m) (req_method rq)
             && Express.route_match (endpoint_path m) (pathname (url rq)) = false) ->
  Express.use_match (mount r) (pathname (url rq)) = Some n ->
  run (routes w) None rq st
  = settle (proxy w r (with_url (Express.trim_prefix n (url rq)) rq) st).
Proof.
  intros Hr Hu Hoff Hn.
  assert (HL : Str.lower (pathname (url rq))
               = Str.lower (mount r) +:+ Str.lower (pathname rest)).
  { rewrite Hu, pathname_app, lower_app; [reflexivity|].
    simpl in Hr. decompose [or] Hr; subst; try reflexivity; contradiction. }
  unfold routes, mounted, bridged.
  simpl in Hr. decompose [or] Hr; try contradiction; subst r.
  - rewrite run_use_miss by (by_path HL).
    do 3 (rewrite run_verb, Hoff).
    rewrite run_use_miss by (by_path HL).
    rewrite (run_use_hit _ _ _ _ _ n Hn). now apply proxy_hit.
  - rewrite run_use_miss by (by_path HL).
    do 3 (rewrite run_verb, Hoff).
    do 2 (rewrite run_use_miss by (by_path HL)).
    rewrite (run_use_hit _ _ _ _ _ n Hn). now apply proxy_hit.
Qed.

(** Any of the seven proxies, once its mount point matches and no bridged
    endpoint is in the way. *)
Lemma routes_proxy r rq st rest n :
  In r route_table ->
  url rq = mount r +:+ rest ->
  (In r [blog_rule; tour_rule] ->
   forall m, handles_method (endpoint_method m) (req_method rq)
             && Express.route_match (endpoint_path m) (pathname (url rq)) = false) ->
  Express.use_match (mount r) (pathname (url rq)) = Some n ->
  run (routes w) None rq st
  = settle (proxy w r (with_url (Express.trim_prefix n (url rq)) rq) st).
Proof.
  intros Hr Hu Hoff Hn.
  assert (Hsplit : In r plain_routes \/ In r [blog_rule; tour_rule]).
  { simpl in Hr |- *. decompose [or] Hr; try contradiction; subst; tauto. }
  destruct Hsplit as [Hp | Hs].
  - now apply (routes_mounted r rq st rest n).
  - now apply (routes_shared r rq st rest n Hs Hu (Hoff Hs)).
Qed.

(** The path the proxy of a matching route prepares: the rewrite of the
    url the library hands over. *)
Lemma routes_proxy_trace r rq rest n :
  In r route_table ->
  url rq = mount r +:+ rest ->
  (In r [blog_rule; tour_rule] ->
   forall m, handles_method (endpoint_method m) (req_method rq)
             && Express.route_match (endpoint_path m) (pathname (url rq)) = false) ->
  Express.use_match (mount r) (pathname (url rq)) = Some n ->
  trace (run (routes w) None rq fresh)
  = [Proxied r (req_method rq)
       (apply_rewrite (pathRewrite r)
          (match library w with
           | Hpm2 => originalUrl rq
           | Hpm3 => Express.trim_prefix n (url rq)
           end))].
Proof.
  intros Hr Hu Hoff Hn. rewrite (routes_proxy r rq fresh rest n Hr Hu Hoff Hn).
  rewrite proxy_trace. unfold handed. destruct (library w); reflexivity.
Qed.

Lemma plain_in_table r : In r plain_routes -> In r route_table.
Proof. simpl. tauto. Qed.

Lemma plain_not_shared r : In r plain_routes -> ~ In r [blog_rule; tour_rule].
Proof.
  simpl. intros Hr Hs.
  decompose [or] Hr; try contradiction; subst r;
    decompose [or] Hs; try contradiction;
    match goal with H : _ = _ |- _ => discriminate H end.
Qed.

Lemma routes_mounted_trace r rq rest n :
  In r plain_routes ->
  url rq = mount r +:+ rest ->
  Express.use_match (mount r) (pathname (url rq)) = Some n ->
  trace (run (routes w) None rq fresh)
  = [Proxied r (req_method rq)
       (apply_rewrite (pathRewrite r)
          (match library w with
           | Hpm2 => originalUrl rq
           | Hpm3 => Express.trim_prefix n (url rq)
           end))].
Proof.
  intros Hr Hu Hn. apply (routes_proxy_trace r rq rest n); try assumption.
  - now apply plain_in_table.
  - intros Hs. destruct (plain_not_shared r Hr Hs).
Qed.

Lemma mount_no_query r : In r route_table -> Str.before "?" (mount r) = mount r.
Proof.
  simpl. intros Hr.
  decompose [or] Hr; subst; try reflexivity; contradiction.
Qed.

(** A sub-path under a mount point: the proxy rewrites the original url
    (up to 2.x) or what follows the prefix (3.x). *)
Lemma subpath_proxied r rq rest :
  In r route_table ->
  url rq = mount r +:+ rest -> subpath rest = true ->
  (In r [blog_rule; tour_rule] ->
   forall m, handles_method (endpoint_method m) (req_method rq)
             && Express.route_match (endpoint_path m) (pathname (url rq)) = false) ->
  trace (run (routes w) None rq fresh)
  = [Proxied r (req_method rq)
       (apply_rewrite (pathRewrite r)
          (match library w with
           | Hpm2 => originalUrl rq
           | Hpm3 => rest
           end))].
Proof.
  intros Hr Hu Hs Hoff.
  destruct (use_match_subpath (mount r) rest (mount_no_query r Hr) Hs)
    as (n & Hn & Ht).
  rewrite <- Hu in Hn, Ht.
  rewrite (routes_proxy_trace r rq rest n Hr Hu Hoff Hn). now rewrite Ht.
Qed.

(** The bare mount point: the original url (up to 2.x), or a slash
    followed by the query string, if any (3.x). *)
Lemma bare_proxied r rq rest :
  In r route_table ->
  url rq = mount r +:+ rest -> bare rest = true ->
  (In r [blog_rule; tour_rule] ->
   forall m, handles_method (endpoint_method m) (req_method rq)
             && Express.route_match (endpoint_path m) (pathname (url rq)) = false) ->
  trace (run (routes w) None rq fresh)
  = [Proxied r (req_method rq)
       (apply_rewrite (pathRewrite r)
          (match library w with
           | Hpm2 => originalUrl rq
           | Hpm3 => "/" +:+ rest
           end))].
Proof.
  intros Hr Hu Hs Hoff.
  destruct (use_match_bare (mount r) rest (mount_no_query r Hr) Hs) as (Hn & Ht).
  rewrite <- Hu in Hn, Ht.
  rewrite (routes_proxy_trace r rq rest _ Hr Hu Hoff Hn). now rewrite Ht.
Qed.

End Proxies.

Section TourExecution.

Variable w : world.

(** Past the gate, a path that starts with [/api/tour-execution] is never
    taken by the proxy mounted at [/api/tour]. *)
Lemma never_tour_rule rq st X :
  Str.lower (pathname (url rq)) = "/api/tour-execution" +:+ X ->
  trace st = [] ->
  forall m p, ~ In (Proxied tour_rule m p) (trace (run (routes w) None rq st)).
Proof.
  intros HL Hst m p. unfold routes, mounted, bridged.
  rewrite run_use_miss by (by_path HL).
  do 3 (rewrite run_verb_miss by (by_path HL)).
  do 3 (rewrite run_use_miss by (by_path HL)).
  rewrite run_use.
  destruct (Express.use_match (mount tour_execution_rule) (pathname (url rq))).
  - rewrite proxy_hit_trace by exact eq_refl. rewrite Hst.
    intros [H | []]. discriminate H.
  - do 2 (rewrite run_use_miss by (by_path HL)).
    rewrite run_verb_miss by (by_path HL).
    simpl. unfold finalhandler. destruct (headersSent st); simpl; rewrite Hst; tauto.
Qed.

(** A path that goes on after [/api/tour-execution] with anything but a
    slash is taken by no layer. *)
Lemma tour_execution_continued rq st c X :
  Str.lower (pathname (url rq)) = "/api/tour-execution" +:+ String c X ->
  Ascii.eqb c "/" = false ->
  run (routes w) None rq st = finalhandler None st.
Proof.
  intros HL Hc. apply routes_none.
  - intros r Hr. simpl in Hr.
    decompose [or] Hr; try contradiction; subst r;
      unfold Express.use_match; rewrite HL; try reflexivity.
    change (Str.lower (mount tour_execution_rule)) with "/api/tour-execution".
    rewrite strip_app. cbv beta iota. rewrite Hc. reflexivity.
  - intros m. apply andb_false_iff. right.
    destruct m; unfold Express.route_match; rewrite HL; reflexivity.
  - apply andb_false_iff. right.
    unfold Express.route_match; rewrite HL; reflexivity.
Qed.

End TourExecution.


(** * The claims *)

(** ** Route matching *)

(** C1, as the code has it.  No request whose path starts with
    [/api/tour-execution] is handled by the proxy mounted at [/api/tour],
    although that one is registered first.  A request that has passed the
    gate and whose path is [/api/tour-execution] itself or goes on with a
    slash is taken by the tour-execution rule, whose target is the tour
    service and which puts [/api/tour-execution] in front of the url the
    proxy library hands it: with 3.x (the mount-relative url) a sub-path
    is forwarded as it came and the bare prefix with a slash added; with
    a release up to 2.x (the original url) the prefix is there twice.  A
    path in origin form that goes on after the prefix with anything but a
    slash is taken by no route: the answer is the 404 of the router and
    nothing is forwarded. *)
Theorem tour_execution_route (w : world) (i : inbound) :
  (Str.startsWith "/api/tour-execution" (pathname (in_target i)) = true ->
     forall m p, ~ In (Proxied tour_rule m p) (trace (handle w i)))
  /\ (forall rest claims,
        in_target i = "/api/tour-execution" +:+ rest ->
        valid_bearer w i claims ->
        (forall n,
            Express.use_match "/api/tour-execution" (pathname (in_target i)) = Some n ->
            trace (handle w i)
            = [Proxied tour_execution_rule (in_method i)
                 ("/api/tour-execution"
                  +:+ match library w with
                      | Hpm2 => in_target i
                      | Hpm3 => Express.trim_prefix n (in_target i)
                      end)])
        /\ (subpath rest = true ->
            trace (handle w i)
            = [Proxied tour_execution_rule (in_method i)
                 (match library w with
                  | Hpm2 => "/api/tour-execution" +:+ in_target i
                  | Hpm3 => in_target i
                  end)])
        /\ (bare rest = true ->
            trace (handle w i)
            = [Proxied tour_execution_rule (in_method i)
                 (match library w with
                  | Hpm2 => "/api/tour-execution" +:+ in_target i
                  | Hpm3 => "/api/tour-execution/" +:+ rest
                  end)]))
  /\ (forall c rest claims,
        origin_form (in_target i) = true ->
        pathname (in_target i) = "/api/tour-execution" +:+ String c rest ->
        Ascii.eqb c "/" = false ->
        valid_bearer w i claims ->
        sent (handle w i) = [ {| status := 404; content_of := ErrorPage |} ]
        /\ trace (handle w i) = [])
  /\ target tour_execution_rule = Tour
  /\ nth_error (routes w) 6 = Some (mounted w tour_rule)
  /\ nth_error (routes w) 7 = Some (mounted w tour_execution_rule).
Proof.
  split; [|split; [|split; [|repeat split]]].
  - intros H m p. apply startsWith_inv in H as [r Hr].
    destruct (gate_cases w i) as [-> | [-> | (rq & -> & Hu & _)]];
      [simpl; tauto | simpl; tauto |].
    apply (never_tour_rule w rq fresh (Str.lower r)); [|reflexivity].
    rewrite Hu, Hr, lower_app. reflexivity.
  - intros rest claims Ht Hc.
    assert (Ha : Str.startsWith "/auth" (in_target i) = false)
      by (rewrite Ht; reflexivity).
    rewrite (gate_pass w i claims Ha Hc).
    assert (Hr : In tour_execution_rule route_table) by (simpl; tauto).
    assert (Hoff : In tour_execution_rule [blog_rule; tour_rule] ->
                   forall m,
                     handles_method (endpoint_method m)
                       (req_method (with_user claims (receive i)))
                     && Express.route_match (endpoint_path m)
                          (pathname (url (with_user claims (receive i)))) = false).
    { intros [H | [H | []]]; discriminate H. }
    split; [|split].
    + intros n Hn.
      rewrite (routes_proxy_trace w tour_execution_rule
                 (with_user claims (receive i)) rest n Hr Ht Hoff Hn).
      destruct (library w); reflexivity.
    + intros Hs.
      rewrite (subpath_proxied w tour_execution_rule
                 (with_user claims (receive i)) rest Hr Ht Hs Hoff).
      destruct (library w); simpl; [reflexivity | now rewrite Ht].
    + intros Hb.
      rewrite (bare_proxied w tour_execution_rule
                 (with_user claims (receive i)) rest Hr Ht Hb Hoff).
      destruct (library w); reflexivity.
  - intros c rest claims _ Hp Hc Hv.
    assert (Ha : Str.startsWith "/auth" (in_target i) = false).
    { rewrite <- (startsWith_pathname "/auth" _ eq_refl), Hp. reflexivity. }
    rewrite (gate_pass w i claims Ha Hv).
    rewrite (tour_execution_continued w _ fresh (Str.lower_ascii c) (Str.lower rest)).
    + split; reflexivity.
    + change (url (with_user claims (receive i))) with (in_target i).
      rewrite Hp, lower_app. reflexivity.
    + now rewrite lower_ascii_slash.
Qed.

Lemma tour_execution_route_witness :
  let i := sample_request GET "/api/tour-execution/7" (Some "Bearer good") in
  (forall m p, ~ In (Proxied tour_rule m p) (trace (handle quiet_world i)))
  /\ trace (handle quiet_world i)
     = [Proxied tour_execution_rule GET "/api/tour-execution/7"]
  /\ trace (handle legacy_world i)
     = [Proxied tour_execution_rule GET "/api/tour-execution/api/tour-execution/7"]
  /\ trace (handle quiet_world
              (sample_request GET "/api/tour-execution?page=2" (Some "Bearer good")))
     = [Proxied tour_execution_rule GET "/api/tour-execution/?page=2"]
  /\ sent (handle quiet_world
             (sample_request GET "/api/tour-executions" (Some "Bearer good")))
     = [ {| status := 404; content_of := ErrorPage |} ].
Proof.
  intros i.
  assert (Hv : forall l r u t,
             valid_bearer (sample_world l r u)
               (sample_request GET t (Some "Bearer good")) sample_claims).
  { intros l r u t. exists "Bearer good", "good". repeat split. }
  split; [|split; [|split; [|split]]].
  - destruct (tour_execution_route quiet_world i) as (H & _). apply H. reflexivity.
  - destruct (tour_execution_route quiet_world i) as (_ & H & _).
    destruct (H "/7" sample_claims eq_refl (Hv _ _ _ _)) as (_ & Hs & _).
    apply Hs. reflexivity.
  - destruct (tour_execution_route legacy_world i) as (_ & H & _).
    destruct (H "/7" sample_claims eq_refl (Hv _ _ _ _)) as (_ & Hs & _).
    apply Hs. reflexivity.
  - destruct (tour_execution_route quiet_world
                (sample_request GET "/api/tour-execution?page=2" (Some "Bearer good")))
      as (_ & H & _).
    destruct (H "?page=2" sample_claims eq_refl (Hv _ _ _ _)) as (_ & _ & Hb).
    apply Hb. reflexivity.
  - destruct (tour_execution_route quiet_world
                (sample_request GET "/api/tour-executions" (Some "Bearer good")))
      as (_ & _ & H & _).
    destruct (H "s"%char "" sample_claims eq_refl eq_refl eq_refl (Hv _ _ _ _))
      as (Hs & _).
    exact Hs.
Defined.

(** C1 as stated fails: a path that continues the prefix without a slash
    starts with [/api/tour-execution], yet no route takes it, whichever
    release of the proxy library is installed. *)
Lemma tour_executions_unrouted :
  let i := sample_request GET "/api/tour-executions" (Some "Bearer good") in
  Str.startsWith "/api/tour-execution" (pathname (in_target i)) = true
  /\ origin_form (in_target i) = true
  /\ valid_bearer quiet_world i sample_claims
  /\ sent (handle quiet_world i) = [ {| status := 404; content_of := ErrorPage |} ]
  /\ sent (handle legacy_world i) = [ {| status := 404; content_of := ErrorPage |} ]
  /\ ~ (exists p, In (Proxied tour_execution_rule (in_method i) p)
                     (trace (handle quiet_world i)))
  /\ ~ (exists p, In (Proxied tour_execution_rule (in_method i) p)
                     (trace (handle legacy_world i))).
Proof.
  intros i. split; [reflexivity|]. split; [reflexivity|]. split.
  { exists "Bearer good", "good". repeat split. }
  split; [reflexivity|]. split; [reflexivity|].
  split; intros (p & H); exact H.
Qed.

(** ** The gate *)






(** ** The bridge *)

(** C4, as the code has it.  A request at a bridged endpoint that has
    passed the gate with a body the parser accepts makes one RPC call,
    with the endpoint's fields of the body.  Whenever a bridged endpoint
    makes its call, that call is the only outbound call, and the answer
    follows from how the call ends: when it succeeds the one response
    written is 201 with the RPC response as JSON body; when it fails with
    status NOT_FOUND (5) it is 404, and when it fails with any other
    status (UNAVAILABLE, 14, for a backend that cannot be reached) it is
    500, both with the JSON body [{ message }] holding the message of the
    RPC error.  The request is left without a response exactly when the
    call never ends: the calls are made without a deadline. *)
Theorem bridge_response_mapping (w : world) (i : inbound) (m : rpc_method) :
  (NOT_FOUND = 5%Z /\ UNAVAILABLE = 14%Z)
  /\ (forall claims b,
      at_endpoint m i = true -> valid_bearer w i claims ->
      (bytes (in_entity i) <= endpoint_limit m)%N ->
      content (in_entity i) = Some b ->
      trace (handle w i) = [Invoked m (pick (rpc_fields m) b)])
  /\ (forall msg,
      In (Invoked m msg) (trace (handle w i)) ->
      trace (handle w i) = [Invoked m msg]
      /\ (forall r, rpc w m msg = RpcReply r ->
         sent (handle w i) = [ {| status := 201; content_of := Json r |} ])
      /\ (forall em, rpc w m msg = RpcError NOT_FOUND em ->
         sent (handle w i)
         = [ {| status := 404;
                content_of := Json (JObj [("message", JStr em)]) |} ])
      /\ (forall code em, rpc w m msg = RpcError code em -> code <> NOT_FOUND ->
         sent (handle w i)
         = [ {| status := 500;
                content_of := Json (JObj [("message", JStr em)]) |} ])
      /\ (sent (handle w i) = [] <-> rpc w m msg = RpcSilent)).
Proof.
  split; [split; reflexivity|]. split.
  - intros claims b He Hc Hb Hj.
    rewrite (bridged_request w m i claims b He Hc Hb Hj). cbv zeta.
    destruct (rpc w m (pick (rpc_fields m) b)); reflexivity.
  - intros msg Hin.
    assert (H : handle w i =
                let st1 := record (Invoked m msg) fresh in
                match rpc w m msg with
                | RpcThrow e => send 500 (message "Gateway internal error") st1
                | RpcError code em =>
                    send (if (code =? NOT_FOUND)%Z then 404 else 500) (message em) st1
                | RpcReply r => send 201 (Json r) st1
                | RpcSilent => st1
                end).
    { destruct (gate_cases w i) as [E | [E | (rq & E & _)]]; rewrite E in Hin |- *.
      - destruct Hin.
      - destruct Hin.
      - now apply routes_invoked. }
    rewrite H. cbv zeta. split; [|split; [|split; [|split]]].
    + destruct (rpc w m msg); reflexivity.
    + intros r ->. reflexivity.
    + intros em ->. reflexivity.
    + intros code em -> Hcode. apply Z.eqb_neq in Hcode. now rewrite Hcode.
    + destruct (rpc w m msg) as [r | code em | e |]; split; intros Hx;
        try discriminate Hx; reflexivity.
Qed.

Lemma bridge_response_mapping_witness :
  let i := sample_request POST "/api/blog" (Some "Bearer good") in
  let msg := [("author", None); ("title", None); ("description", None);
              ("images", None)] in
  trace (handle quiet_world i) = [Invoked BlogCreate msg]
  /\ sent (handle (sample_world Hpm3 (RpcReply (JObj [("id", JStr "1")]))
                     (UpReply 200 "ok")) i)
    = [ {| status := 201; content_of := Json (JObj [("id", JStr "1")]) |} ]
  /\ sent (handle (sample_world Hpm3 (RpcError 5 "no such blog") (UpReply 200 "ok")) i)
    = [ {| status := 404;
           content_of := Json (JObj [("message", JStr "no such blog")]) |} ]
  /\ sent (handle (sample_world Hpm3 (RpcError 14 "failed to connect")
                     (UpReply 200 "ok")) i)
    = [ {| status := 500;
           content_of := Json (JObj [("message", JStr "failed to connect")]) |} ].
Proof.
  intros i msg. split; [|split; [|split]].
  - destruct (bridge_response_mapping quiet_world i BlogCreate) as (_ & H & _).
    apply (H sample_claims (JObj [])).
    + reflexivity.
    + exists "Bearer good", "good". repeat split.
    + vm_compute; discriminate.
    + reflexivity.
  - destruct (bridge_response_mapping
                (sample_world Hpm3 (RpcReply (JObj [("id", JStr "1")]))
                   (UpReply 200 "ok"))
                i BlogCreate) as (_ & _ & H).
    destruct (H msg) as (_ & H1 & _); [simpl; left; reflexivity|].
    apply H1. reflexivity.
  - destruct (bridge_response_mapping
                (sample_world Hpm3 (RpcError 5 "no such blog") (UpReply 200 "ok"))
                i BlogCreate) as (_ & _ & H).
    destruct (H msg) as (_ & _ & H2 & _); [simpl; left; reflexivity|].
    apply H2. reflexivity.
  - destruct (bridge_response_mapping
                (sample_world Hpm3 (RpcError 14 "failed to connect")
                   (UpReply 200 "ok"))
                i BlogCreate) as (_ & _ & H).
    destruct (H msg) as (_ & _ & _ & H3 & _); [simpl; left; reflexivity|].
    apply (H3 14%Z); [reflexivity | discriminate].
Defined.

(** C4 as stated fails in its last part: the connection does hang when
    the backend of a bridged endpoint takes the call and never answers.
    The call is made, no deadline ends it, the callback is never invoked
    and nothing is written. *)
Lemma bridged_call_never_answered :
  let w := sample_world Hpm3 RpcSilent (UpReply 200 "ok") in
  let i := sample_request PATCH "/api/blog/comment" (Some "Bearer good") in
  valid_bearer w i sample_claims
  /\ at_endpoint BlogPostComment i = true
  /\ trace (handle w i)
     = [Invoked BlogPostComment [("blogId", None); ("author", None); ("text", None)]]
  /\ sent (handle w i) = [].
Proof.
  intros w i. split.
  { exists "Bearer good", "good". repeat split. }
  repeat split.
Qed.

(** ** Path rewriting *)

(** C5, as the code has it.  The path a proxy forwards is the route's
    rewrite of the url the proxy library hands it: the mount-relative url
    with 3.x, the original url with a release up to 2.x.  With 3.x a
    sub-path under [/auth] is forwarded as it came and the bare prefix as
    [/auth/]; a sub-path under [/api/followers] that does not itself start
    with [/api/followers] is forwarded without the prefix, and so is a
    sub-path under [/stakeholders].  With a release up to 2.x a target
    under [/auth] is forwarded with a second [/auth] in front, a sub-path
    under [/api/followers] without the prefix, and a sub-path under
    [/stakeholders] as it came, prefix included. *)
Theorem forwarded_paths (w : world) (i : inbound) (rest : string) :
  (forall r n,
      In r plain_routes ->
      in_target i = mount r +:+ rest ->
      (r = auth_rule \/ exists claims, valid_bearer w i claims) ->
      Express.use_match (mount r) (pathname (in_target i)) = Some n ->
      trace (handle w i)
      = [Proxied r (in_method i)
           (apply_rewrite (pathRewrite r)
              (match library w with
               | Hpm2 => in_target i
               | Hpm3 => Express.trim_prefix n (in_target i)
               end))])
  /\ (in_target i = "/auth" +:+ rest ->
      (subpath rest = true ->
       trace (handle w i)
       = [Proxied auth_rule (in_method i)
            (match library w with
             | Hpm2 => "/auth" +:+ in_target i
             | Hpm3 => in_target i
             end)])
      /\ (bare rest = true ->
       trace (handle w i)
       = [Proxied auth_rule (in_method i)
            (match library w with
             | Hpm2 => "/auth" +:+ in_target i
             | Hpm3 => "/auth/" +:+ rest
             end)]))
  /\ (forall claims, valid_bearer w i claims ->
        (in_target i = "/api/followers" +:+ rest ->
         subpath rest = true ->
         (library w = Hpm3 -> Str.startsWith "/api/followers" rest = false) ->
         trace (handle w i) = [Proxied followers_rule (in_method i) rest])
        /\ (in_target i = "/stakeholders" +:+ rest ->
         subpath rest = true ->
         trace (handle w i)
         = [Proxied stakeholders_rule (in_method i)
              (match library w with
               | Hpm2 => in_target i
               | Hpm3 => rest
               end)])).
Proof.
  assert (Hoff : forall r rq,
             In r plain_routes ->
             In r [blog_rule; tour_rule] ->
             forall m, handles_method (endpoint_method m) (req_method rq)
                       && Express.route_match (endpoint_path m) (pathname (url rq))
                       = false).
  { intros r rq Hr Hs. destruct (plain_not_shared r Hr Hs). }
  split; [|split].
  - intros r n Hr Ht Hg Hn.
    destruct (Str.startsWith "/auth" (in_target i)) eqn:Ha.
    + rewrite (gate_bypass w i Ha).
      now rewrite (routes_mounted_trace w r (receive i) rest n Hr Ht Hn).
    + destruct Hg as [-> | (claims & Hc)].
      * rewrite Ht in Ha. change (mount auth_rule) with "/auth" in Ha.
        rewrite startsWith_app in Ha. discriminate Ha.
      * rewrite (gate_pass w i claims Ha Hc).
        now rewrite (routes_mounted_trace w r (with_user claims (receive i))
                       rest n Hr Ht Hn).
  - intros Ht.
    assert (Ha : Str.startsWith "/auth" (in_target i) = true)
      by (rewrite Ht; apply startsWith_app).
    assert (Hr : In auth_rule plain_routes) by (simpl; tauto).
    rewrite (gate_bypass w i Ha). split.
    + intros Hs.
      rewrite (subpath_proxied w auth_rule (receive i) rest
                 (plain_in_table _ Hr) Ht Hs (Hoff _ _ Hr)).
      destruct (library w); simpl; [reflexivity | now rewrite Ht].
    + intros Hb.
      rewrite (bare_proxied w auth_rule (receive i) rest
                 (plain_in_table _ Hr) Ht Hb (Hoff _ _ Hr)).
      destruct (library w); reflexivity.
  - intros claims Hc. split.
    + intros Ht Hs Hf.
      assert (Ha : Str.startsWith "/auth" (in_target i) = false)
        by (rewrite Ht; reflexivity).
      assert (Hr : In followers_rule plain_routes) by (simpl; tauto).
      rewrite (gate_pass w i claims Ha Hc).
      rewrite (subpath_proxied w followers_rule
                 (with_user claims (receive i)) rest
                 (plain_in_table _ Hr) Ht Hs (Hoff _ _ Hr)).
      change (pathRewrite followers_rule) with (Replace "/api/followers" "").
      unfold apply_rewrite.
      destruct (library w).
      * change (originalUrl (with_user claims (receive i))) with (in_target i).
        rewrite Ht, startsWith_app.
        change (String.length "/api/followers") with 14.
        change 14 with (String.length "/api/followers").
        now rewrite slice_app.
      * now rewrite (Hf eq_refl).
    + intros Ht Hs.
      assert (Ha : Str.startsWith "/auth" (in_target i) = false)
        by (rewrite Ht; reflexivity).
      assert (Hr : In stakeholders_rule plain_routes) by (simpl; tauto).
      rewrite (gate_pass w i claims Ha Hc).
      rewrite (subpath_proxied w stakeholders_rule
                 (with_user claims (receive i)) rest
                 (plain_in_table _ Hr) Ht Hs (Hoff _ _ Hr)).
      destruct (library w); reflexivity.
Qed.

Lemma forwarded_paths_witness :
  trace (handle quiet_world (sample_request POST "/auth/login?next=1" None))
    = [Proxied auth_rule POST "/auth/login?next=1"]
  /\ trace (handle legacy_world (sample_request POST "/auth/login?next=1" None))
    = [Proxied auth_rule POST "/auth/auth/login?next=1"]
  /\ trace (handle quiet_world
              (sample_request GET "/api/followers/42" (Some "Bearer good")))
    = [Proxied followers_rule GET "/42"]
  /\ trace (handle legacy_world
              (sample_request GET "/api/followers/42" (Some "Bearer good")))
    = [Proxied followers_rule GET "/42"]
  /\ trace (handle quiet_world
              (sample_request GET "/stakeholders/7" (Some "Bearer good")))
    = [Proxied stakeholders_rule GET "/7"]
  /\ trace (handle legacy_world
              (sample_request GET "/stakeholders/7" (Some "Bearer good")))
    = [Proxied stakeholders_rule GET "/stakeholders/7"].
Proof.
  assert (Hv : forall l r u t,
             valid_bearer (sample_world l r u)
               (sample_request GET t (Some "Bearer good")) sample_claims).
  { intros l r u t. exists "Bearer good", "good". repeat split. }
  split; [|split; [|split; [|split; [|split]]]].
  - destruct (forwarded_paths quiet_world
                (sample_request POST "/auth/login?next=1" None) "/login?next=1")
      as (_ & H & _).
    destruct (H eq_refl) as (Hs & _). apply Hs. reflexivity.
  - destruct (forwarded_paths legacy_world
                (sample_request POST "/auth/login?next=1" None) "/login?next=1")
      as (_ & H & _).
    destruct (H eq_refl) as (Hs & _). apply Hs. reflexivity.
  - destruct (forwarded_paths quiet_world
                (sample_request GET "/api/followers/42" (Some "Bearer good")) "/42")
      as (_ & _ & H).
    destruct (H sample_claims (Hv _ _ _ _)) as (Hf & _).
    apply Hf; [reflexivity | reflexivity | intros _; reflexivity].
  - destruct (forwarded_paths legacy_world
                (sample_request GET "/api/followers/42" (Some "Bearer good")) "/42")
      as (_ & _ & H).
    destruct (H sample_claims (Hv _ _ _ _)) as (Hf & _).
    apply Hf; [reflexivity | reflexivity | intros _; reflexivity].
  - destruct (forwarded_paths quiet_world
                (sample_request GET "/stakeholders/7" (Some "Bearer good")) "/7")
      as (_ & _ & H).
    destruct (H sample_claims (Hv _ _ _ _)) as (_ & Hs).
    apply Hs; reflexivity.
  - destruct (forwarded_paths legacy_world
                (sample_request GET "/stakeholders/7" (Some "Bearer good")) "/7")
      as (_ & _ & H).
    destruct (H sample_claims (Hv _ _ _ _)) as (_ & Hs).
    apply Hs; reflexivity.
Defined.

(** C5 as stated fails, whichever release of the proxy library is
    installed: a request for the bare prefix [/auth] is under the [/auth]
    mount, and the upstream receives [/auth/] (3.x) or [/auth/auth] (up
    to 2.x), neither of which is the path that came in.  Besides, with
    3.x a path under [/api/followers] whose remainder starts with
    [/api/followers] again loses that as well, and with a release up to
    2.x a sub-path under [/auth] arrives with the prefix twice and a path
    under [/stakeholders] arrives with its prefix. *)
Lemma auth_bare_prefix_gains_slash :
  let i := sample_request GET "/auth" None in
  let j := sample_request GET "/api/followers/api/followers/y" (Some "Bearer good") in
  Express.use_match (mount auth_rule) (pathname (in_target i)) = Some 5
  /\ trace (handle quiet_world i) = [Proxied auth_rule GET "/auth/"]
  /\ "/auth/" <> in_target i
  /\ trace (handle legacy_world i) = [Proxied auth_rule GET "/auth/auth"]
  /\ "/auth/auth" <> in_target i
  /\ trace (handle quiet_world j) = [Proxied followers_rule GET "/y"]
  /\ "/y" <> "/api/followers/y"
  /\ trace (handle legacy_world (sample_request POST "/auth/login" None))
     = [Proxied auth_rule POST "/auth/auth/login"]
  /\ trace (handle legacy_world
              (sample_request GET "/stakeholders/7" (Some "Bearer good")))
     = [Proxied stakeholders_rule GET "/stakeholders/7"].
Proof.
  intros i j. repeat split; discriminate.
Qed.

(** ** Upstream failures *)

(** C6, where the code departs from it.  When an upstream exchange fails
    before anything was written, the [onError] of every route answers 502
    with a message and the error text; for every route but [/api/carts]
    the message names the service the route forwards to.  The
    [/api/carts] route forwards to the payments service and its message
    names the followers service.  (The last part runs the pipeline with a
    proxy library that calls [onError], a release up to 2.x.) *)
Theorem carts_failure_names_followers :
  (forall r err st, In r route_table -> headersSent st = false ->
     onError r err st
     = send 502 (Json (JObj [("message", JStr (failure_message r));
                             ("error", JStr err)])) st)
  /\ (forall r, In r route_table -> r <> carts_rule ->
        failure_message r = names_target r)
  /\ target carts_rule = Payments
  /\ failure_message carts_rule = "Gateway failed to reach followers service"
  /\ names_target carts_rule = "Gateway failed to reach payments service"
  /\ handle (sample_world Hpm2 (RpcReply JNull) (UpError None "connect ECONNREFUSED"))
            (sample_request GET "/api/carts/1" (Some "Bearer good"))
     = send 502 (Json (JObj [("message", JStr "Gateway failed to reach followers service");
                             ("error", JStr "connect ECONNREFUSED")]))
         (record (Proxied carts_rule GET "/api/carts/api/carts/1") fresh).
Proof.
  split; [|split; [|repeat split]].
  - intros r err st _ Hs. unfold onError. now rewrite Hs.
  - intros r Hr Hne. simpl in Hr.
    decompose [or] Hr; try contradiction; subst r; try reflexivity.
    now contradiction Hne.
Qed.

Lemma carts_failure_names_followers_witness :
  onError auth_rule "socket hang up" fresh
    = send 502 (Json (JObj [("message", JStr "Gateway failed to reach auth service");
                            ("error", JStr "socket hang up")])) fresh
  /\ failure_message tour_execution_rule = names_target tour_execution_rule.
Proof.
  destruct carts_failure_names_followers as (H1 & H2 & _). split.
  - apply (H1 auth_rule); [simpl; tauto | reflexivity].
  - apply (H2 tour_execution_rule); [simpl; tauto | discriminate].
Defined.

(** ** The final error handler *)




(** ** Start-up *)

Lemma missing_iff (e : gmap string string) (keys : list string) :
  0 < length (List.filter (unset e) keys)
  <-> exists key, In key keys /\ unset e key = true.
Proof.
  split.
  - destruct (List.filter (unset e) keys) as [|k l] eqn:E; simpl; [lia|].
    intros _. exists k. apply filter_In. rewrite E. now left.
  - intros (k & Hk). apply filter_In in Hk.
    destruct (List.filter (unset e) keys); [destruct Hk | simpl; lia].
Qed.

Lemma earlier_check_iff (e : gmap string string) (keys : list string) :
  Earlier.check e keys = Some 1%Z
  <-> exists key, In key keys /\ unset e key = true.
Proof.
  induction keys as [|k keys IH]; simpl.
  - split; [discriminate | intros (k & [] & _)].
  - destruct (unset e k) eqn:E.
    + split; [|reflexivity]. intros _. exists k. split; [now left | exact E].
    + rewrite IH. split.
      * intros (k' & Hk' & Hu). exists k'. split; [now right | exact Hu].
      * intros (k' & [<- | Hk'] & Hu); [congruence|]. now exists k'.
Qed.

Lemma unset_delete (e : gmap string string) (k key : string) :
  key <> k -> unset (delete k e) key = unset e key.
Proof. intros H. unfold unset. now rewrite lookup_delete_ne. Qed.

(** The signing secret plays no part in the start-up. *)
Lemma startup_ignores_secret construct (e : gmap string string) :
  startup construct (delete "JWT_SECRET" e) = startup construct e.
Proof.
  unfold startup, missingVars, PORT, requiredEnv. simpl.
  rewrite !unset_delete by discriminate.
  rewrite !lookup_delete_ne by discriminate. reflexivity.
Qed.

(** With the six base URLs in place the start-up goes on to the clients. *)
Lemma startup_past_check construct (e : gmap string string) :
  (forall key, In key requiredEnv -> unset e key = false) ->
  startup construct e
  = match construct (e !! "BLOG_SERVICE_GRPC_HOST") with
    | Some err => Threw err
    | None =>
        match construct (e !! "TOUR_SERVICE_GRPC_HOST") with
        | Some err => Threw err
        | None => Listening (PORT e)
        end
    end.
Proof.
  intros H. unfold startup, missingVars.
  destruct (0 <? length (List.filter (unset e) requiredEnv)) eqn:E; [|reflexivity].
  apply Nat.ltb_lt in E. apply missing_iff in E as (k & Hk & Hu).
  rewrite (H k Hk) in Hu. discriminate Hu.
Qed.

(** C8, as the code has it.  The start-up check covers the six base URLs
    of the proxied services: when one of them is unset or empty the
    process exits with code 1 before it does anything else.  Then the two
    gRPC clients are constructed, the blog client first, from the
    addresses in the environment: when a constructor throws (as it does
    when the address is unset) the module stops loading with that error
    and never listens.  When the six URLs are set and both clients accept
    their address it starts listening.  The signing secret is not looked
    at: taking it out of the environment changes nothing at start-up.  The
    earlier variant checks its five base URLs in the same way. *)
Theorem startup_checks_service_urls
    (construct : option string -> option string) (e : gmap string string) :
  ((exists key, In key requiredEnv /\ unset e key = true) ->
     startup construct e = Exit 1)
  /\ ((forall key, In key requiredEnv -> unset e key = false) ->
      (forall err, construct (e !! "BLOG_SERVICE_GRPC_HOST") = Some err ->
                   startup construct e = Threw err)
      /\ (forall err, construct (e !! "BLOG_SERVICE_GRPC_HOST") = None ->
                      construct (e !! "TOUR_SERVICE_GRPC_HOST") = Some err ->
                      startup construct e = Threw err)
      /\ (construct (e !! "BLOG_SERVICE_GRPC_HOST") = None ->
          construct (e !! "TOUR_SERVICE_GRPC_HOST") = None ->
          startup construct e = Listening (PORT e)
          /\ startup construct (delete "JWT_SECRET" e) = Listening (PORT e))
      /\ (forall key err,
            In key ["BLOG_SERVICE_GRPC_HOST"; "TOUR_SERVICE_GRPC_HOST"] ->
            e !! key = None ->
            construct None = Some err ->
            exists err', startup construct e = Threw err')
      /\ (forall key,
            In key ["BLOG_SERVICE_GRPC_HOST"; "TOUR_SERVICE_GRPC_HOST"] ->
            e !! key = None ->
            exists err', startup strict_client e = Threw err'))
  /\ startup construct (delete "JWT_SECRET" e) = startup construct e
  /\ ((exists key, In key Earlier.requiredEnv /\ unset e key = true) ->
      Earlier.startup e = Exit 1)
  /\ requiredEnv
     = map service_url_key [Auth; Stakeholders; Blog; Tour; Followers; Payments].
Proof.
  assert (Hthrow : forall c key err,
             (forall key, In key requiredEnv -> unset e key = false) ->
             In key ["BLOG_SERVICE_GRPC_HOST"; "TOUR_SERVICE_GRPC_HOST"] ->
             e !! key = None -> c None = Some err ->
             exists err', startup c e = Threw err').
  { intros c key err H Hk Hn Hc. rewrite (startup_past_check c e H).
    destruct Hk as [<- | [<- | []]].
    - rewrite Hn, Hc. now exists err.
    - destruct (c (e !! "BLOG_SERVICE_GRPC_HOST")) as [err'|];
        [now exists err'|].
      rewrite Hn, Hc. now exists err. }
  split; [|split; [|split; [|split]]].
  - intros H. apply missing_iff in H. unfold startup, missingVars.
    apply Nat.ltb_lt in H. now rewrite H.
  - intros H. split; [|split; [|split; [|split]]].
    + intros err Hb. rewrite (startup_past_check construct e H), Hb. reflexivity.
    + intros err Hb Ht.
      rewrite (startup_past_check construct e H), Hb, Ht. reflexivity.
    + intros Hb Ht. rewrite startup_ignores_secret.
      rewrite (startup_past_check construct e H), Hb, Ht. split; reflexivity.
    + intros key err Hk Hn Hc.
      now apply (Hthrow construct key err).
    + intros key Hk Hn.
      now apply (Hthrow strict_client key "Channel target must be a string").
  - apply startup_ignores_secret.
  - intros H. apply earlier_check_iff in H. unfold Earlier.startup. now rewrite H.
  - reflexivity.
Qed.

Lemma startup_checks_service_urls_witness :
  startup strict_client (delete "TOUR_SERVICE_URL" sample_env) = Exit 1
  /\ startup strict_client sample_env = Listening "8080"
  /\ startup strict_client (delete "TOUR_SERVICE_GRPC_HOST" sample_env)
     = Threw "Channel target must be a string"
  /\ (exists err,
        startup strict_client (delete "BLOG_SERVICE_GRPC_HOST" sample_env) = Threw err)
  /\ Earlier.startup (delete "TOUR_SERVICE_URL" sample_env) = Exit 1.
Proof.
  assert (Hset : forall k, In k ["BLOG_SERVICE_GRPC_HOST"; "TOUR_SERVICE_GRPC_HOST"] ->
                 forall key, In key requiredEnv ->
                             unset (delete k sample_env) key = false).
  { intros k Hk key Hkey. simpl in Hk, Hkey.
    decompose [or] Hk; try contradiction; subst k;
      decompose [or] Hkey; try contradiction; subst key; reflexivity. }
  split; [|split; [|split; [|split]]].
  - destruct (startup_checks_service_urls strict_client
                (delete "TOUR_SERVICE_URL" sample_env)) as (H & _).
    apply H. exists "TOUR_SERVICE_URL". split; [simpl; tauto | reflexivity].
  - destruct (startup_checks_service_urls strict_client sample_env) as (_ & H & _).
    destruct H as (_ & _ & H & _).
    + intros key Hk. simpl in Hk.
      decompose [or] Hk; try contradiction; subst key; reflexivity.
    + apply H; reflexivity.
  - destruct (startup_checks_service_urls strict_client
                (delete "TOUR_SERVICE_GRPC_HOST" sample_env)) as (_ & H & _).
    destruct H as (_ & H & _).
    + apply Hset. simpl; tauto.
    + apply H; reflexivity.
  - destruct (startup_checks_service_urls strict_client
                (delete "BLOG_SERVICE_GRPC_HOST" sample_env)) as (_ & H & _).
    destruct H as (_ & _ & _ & _ & H).
    + apply Hset. simpl; tauto.
    + apply (H "BLOG_SERVICE_GRPC_HOST"); [simpl; tauto | reflexivity].
  - destruct (startup_checks_service_urls strict_client
                (delete "TOUR_SERVICE_URL" sample_env)) as (_ & _ & _ & H & _).
    apply H. exists "TOUR_SERVICE_URL". split; [simpl; tauto | reflexivity].
Defined.

(** C8 as stated fails: with the six base URLs and the two gRPC addresses
    set and the signing secret missing, a required value is missing and
    the process starts listening. *)
Lemma startup_without_secret :
  In "JWT_SECRET" configuration
  /\ unset env_without_secret "JWT_SECRET" = true
  /\ startup strict_client env_without_secret = Listening "8080"
  /\ startup strict_client env_without_secret <> Exit 1.
Proof.
  repeat split; [simpl; tauto | discriminate].
Qed.

(** ** The bridged endpoints and the gate *)



(** ** The logging callbacks of the tour-execution route *)

(** C10. In the scope the callbacks of the tour-execution route run in
    (their parameters, the bindings of the module, the globals) nothing is
    called [target], and neither callback has a [try]: whatever the
    request, both raise a reference error for [target] when they are
    invoked.  The callbacks of every other route complete: the forwarding
    line is logged inside [try], the response line after a local
    [const target]. *)
Theorem tour_execution_callbacks_throw
    (e : gmap string string) (a res : Callback.value)
    (fs gs : list (string * Callback.value)) :
  Callback.call e "proxyReq" (onProxyReq tour_execution_rule)
                a (Callback.VObj fs) res
    = Callback.Throws (Callback.ReferenceError "target")
  /\ Callback.call e "proxyRes" (onProxyRes tour_execution_rule)
                   a (Callback.VObj fs) res
    = Callback.Throws (Callback.ReferenceError "target")
  /\ ~ In "target" (bound_names "proxyReq")
  /\ ~ In "target" (bound_names "proxyRes")
  /\ uses_try (onProxyReq tour_execution_rule) = false
  /\ uses_try (onProxyRes tour_execution_rule) = false
  /\ (forall r, In r route_table -> r <> tour_execution_rule ->
        uses_try (onProxyReq r) = true
        /\ (exists lines,
            Callback.call e "proxyReq" (onProxyReq r) a (Callback.VObj fs) res
            = Callback.Done lines)
        /\ (exists lines,
            Callback.call e "proxyRes" (onProxyRes r)
                          (Callback.VObj gs) (Callback.VObj fs) res
            = Callback.Done lines)).
Proof.
  split; [reflexivity|]. split; [reflexivity|].
  split; [|split].
  - unfold bound_names. simpl. intros H.
    repeat (destruct H as [H|H]; [discriminate H|]). exact H.
  - unfold bound_names. simpl. intros H.
    repeat (destruct H as [H|H]; [discriminate H|]). exact H.
  - split; [reflexivity|]. split; [reflexivity|].
    intros r Hr Hne. simpl in Hr.
    decompose [or] Hr; try contradiction; subst r;
      try (now contradiction Hne);
      (split; [reflexivity|];
       split; [apply log_forwarding_completes | apply log_response_completes]).
Qed.

Lemma tour_execution_callbacks_throw_witness :
  (exists lines,
      Callback.call sample_env "proxyReq" (onProxyReq tour_rule)
        (Callback.VObj [("path", Callback.VStr "/api/tour/3")])
        (Callback.VObj [("method", Callback.VStr "GET");
                        ("originalUrl", Callback.VStr "/api/tour/3")])
        Callback.VOpaque
      = Callback.Done lines)
  /\ (exists lines,
      Callback.call sample_env "proxyRes" (onProxyRes tour_rule)
        (Callback.VObj [("statusCode", Callback.VNum 200)])
        (Callback.VObj [("method", Callback.VStr "GET");
                        ("originalUrl", Callback.VStr "/api/tour/3")])
        Callback.VOpaque
      = Callback.Done lines).
Proof.
  destruct (tour_execution_callbacks_throw sample_env
              (Callback.VObj [("path", Callback.VStr "/api/tour/3")])
              Callback.VOpaque
              [("method", Callback.VStr "GET");
               ("originalUrl", Callback.VStr "/api/tour/3")]
              [("statusCode", Callback.VNum 200)])
    as (_ & _ & _ & _ & _ & _ & H).
  destruct (H tour_rule) as (_ & H1 & H2); [simpl; tauto | discriminate |].
  split; [exact H1|].
  destruct (tour_execution_callbacks_throw sample_env
              (Callback.VObj [("statusCode", Callback.VNum 200)])
              Callback.VOpaque
              [("method", Callback.VStr "GET");
               ("originalUrl", Callback.VStr "/api/tour/3")]
              [("statusCode", Callback.VNum 200)])
    as (_ & _ & _ & _ & _ & _ & H').
  destruct (H' tour_rule) as (_ & _ & H3); [simpl; tauto | discriminate |].
  exact H3.
Defined.

(** * Further properties *)

(** ** The token the gate verifies *)

Section Token.

Lemma split_head c s : exists tl, Str.split c s = Str.before c s :: tl.
Proof.
  induction s as [|a s [tl IH]]; simpl.
  - now exists [].
  - destruct (Ascii.eqb a c).
    + now exists (Str.split c s).
    + rewrite IH. now exists tl.
Qed.

Lemma split_word c p r :
  Str.before c p = p -> Str.split c (p +:+ String c r) = p :: Str.split c r.
Proof.
  induction p as [|a p IH]; intros Hp.
  - rewrite append_nil_l. simpl. now rewrite Ascii.eqb_refl.
  - rewrite append_cons. simpl in *.
    destruct (Ascii.eqb a c); [discriminate|].
    injection Hp as Hp. now rewrite (IH Hp).
Qed.

Lemma token_of_bearer h :
  Str.startsWith "Bearer " h = true ->
  token_of h = Some (Str.before " " (Str.slice 7 h)).
Proof.
  intros H. apply startsWith_inv in H as [r ->].
  change ("Bearer " +:+ r) with ("Bearer" +:+ String " " r) at 1.
  unfold token_of. rewrite split_word by reflexivity.
  destruct (split_head " " r) as [tl ->]. reflexivity.
Qed.

End Token.

(** X1. The token handed to the verifier is the second word of the
    Authorization header: what lies between [Bearer ] and the next space.
    A header that starts with [Bearer ] always has one, and whatever
    follows a second space is ignored. *)
Theorem bearer_token_is_second_word (w : world) (i : inbound) (h : string) :
  Str.startsWith "/auth" (in_target i) = false ->
  in_authorization i = Some h ->
  Str.startsWith "Bearer " h = true ->
  token_of h = Some (Str.before " " (Str.slice 7 h))
  /\ verifyJWT w (receive i) fresh
     = match jwt_verify w (Str.before " " (Str.slice 7 h)) (env w !! "JWT_SECRET") with
       | Some claims => Next (with_user claims (receive i)) fresh
       | None => Stop (send 403 (message "Invalid or expired token") fresh)
       end.
Proof.
  intros Ha Hh Hb. pose proof (token_of_bearer h Hb) as Ht.
  split; [exact Ht|]. unfold verifyJWT.
  change (originalUrl (receive i)) with (in_target i). rewrite Ha.
  change (authorization (receive i)) with (in_authorization i). rewrite Hh, Hb.
  destruct (String.eqb h "") eqn:E.
  { apply String.eqb_eq in E; subst h. discriminate. }
  simpl. rewrite Ht. reflexivity.
Qed.

Lemma bearer_token_is_second_word_witness :
  let i := sample_request GET "/api/tour/3" (Some "Bearer good and more") in
  token_of "Bearer good and more" = Some "good"
  /\ verifyJWT quiet_world (receive i) fresh
     = Next (with_user sample_claims (receive i)) fresh.
Proof.
  intros i.
  destruct (bearer_token_is_second_word quiet_world i "Bearer good and more"
              eq_refl eq_refl eq_refl) as (H1 & H2).
  split; [exact H1 | exact H2].
Defined.

(** ** What the gate lets through *)

Section Admission.

Variable w : world.

(** The four ways a request leaves the gate. *)
Lemma gate_outcome i :
  handle w i = send 401 (message "No token provided") fresh
  \/ handle w i = send 403 (message "Invalid or expired token") fresh
  \/ (Str.startsWith "/auth" (in_target i) = true
      /\ handle w i = run (routes w) None (receive i) fresh)
  \/ (Str.startsWith "/auth" (in_target i) = false
      /\ exists claims,
           valid_bearer w i claims
           /\ handle w i = run (routes w) None (with_user claims (receive i)) fresh).
Proof.
  destruct (Str.startsWith "/auth" (in_target i)) eqn:H.
  - right; right; left. split; [reflexivity | now apply gate_bypass].
  - destruct (in_authorization i) as [h|] eqn:Hh.
    + destruct (Str.startsWith "Bearer " h) eqn:Hb.
      * destruct (token_of h) as [t|] eqn:Ht.
        -- destruct (jwt_verify w t (env w !! "JWT_SECRET")) as [c|] eqn:Hv.
           ++ right; right; right. split; [reflexivity|]. exists c.
              assert (Hc : valid_bearer w i c) by now exists h, t.
              split; [exact Hc | now apply gate_pass].
           ++ right; left. apply (gate_403 w i h H Hh Hb).
              intros t' Ht'. congruence.
        -- right; left. apply (gate_403 w i h H Hh Hb). intros t' Ht'. congruence.
      * left. apply gate_401; [exact H|]. right. now exists h.
    + left. apply gate_401; [exact H|]. now left.
Qed.

(** Past the gate, a target that starts with [/auth] reaches the
    authentication service or nothing. *)
Lemma routes_under_auth rq X :
  Str.lower (pathname (url rq)) = "/auth" +:+ X ->
  trace (run (routes w) None rq fresh) = []
  \/ exists p, trace (run (routes w) None rq fresh)
               = [Proxied auth_rule (req_method rq) p].
Proof.
  intros HL. unfold routes, mounted, bridged.
  rewrite run_use.
  destruct (Express.use_match (mount auth_rule) (pathname (url rq))).
  - right. rewrite proxy_hit_trace by exact eq_refl. eexists. reflexivity.
  - left.
    do 3 (rewrite run_verb_miss by (by_path HL)).
    do 6 (rewrite run_use_miss by (by_path HL)).
    rewrite run_verb_miss by (by_path HL). reflexivity.
Qed.

Lemma lower_pathname_auth i :
  Str.startsWith "/auth" (in_target i) = true ->
  exists X, Str.lower (pathname (in_target i)) = "/auth" +:+ X.
Proof.
  intros H. rewrite <- (startsWith_pathname "/auth" _ eq_refl) in H.
  apply startsWith_inv in H as [r Hr]. exists (Str.lower r).
  now rewrite Hr, lower_app.
Qed.

Lemma admitted_through i : admitted w i -> exists rq, let_through w i rq.
Proof.
  intros Had. destruct (Str.startsWith "/auth" (in_target i)) eqn:Ha.
  - exists (receive i). split; [now apply gate_bypass | repeat split].
  - destruct Had as [H | (c & Hc)]; [congruence|].
    exists (with_user c (receive i)). split; [now apply gate_pass | repeat split].
Qed.

End Admission.

(** X2. Without a bearer credential that verifies, a request reaches the
    authentication service or nothing: every outbound call made for it is
    the [/auth] proxy forwarding, whatever its path, method and body. *)
Theorem only_auth_without_credential (w : world) (i : inbound) :
  (forall claims, ~ valid_bearer w i claims) ->
  forall ev, In ev (trace (handle w i)) ->
             exists p, ev = Proxied auth_rule (in_method i) p.
Proof.
  intros Hno ev Hev.
  destruct (gate_outcome w i) as [E | [E | [(Ha & E) | (_ & c & Hc & _)]]].
  - rewrite E in Hev. destruct Hev.
  - rewrite E in Hev. destruct Hev.
  - rewrite E in Hev. destruct (lower_pathname_auth i Ha) as [X HX].
    destruct (routes_under_auth w (receive i) X HX) as [T | [p T]];
      rewrite T in Hev.
    + destruct Hev.
    + destruct Hev as [<- | []]. now exists p.
  - destruct (Hno c Hc).
Qed.

Lemma only_auth_without_credential_witness :
  In (Proxied auth_rule POST "/auth/login")
     (trace (handle quiet_world (sample_request POST "/auth/login" None)))
  /\ exists p, Proxied auth_rule POST "/auth/login" = Proxied auth_rule POST p.
Proof.
  assert (Hin : In (Proxied auth_rule POST "/auth/login")
                   (trace (handle quiet_world
                             (sample_request POST "/auth/login" None))))
    by (simpl; left; reflexivity).
  split; [exact Hin|].
  apply (only_auth_without_credential quiet_world
           (sample_request POST "/auth/login" None)); [|exact Hin].
  intros claims (h & t & Hh & _). discriminate Hh.
Defined.

(** ** When the RPC clients are called *)

Section Calls.

Variable w : world.

Lemma bridge_hit_called m' rq0 rq ls m msg :
  guarded ls ->
  In (Invoked m msg)
     (trace (match chain [express_json (endpoint_limit m'); bridge w m'] rq fresh with
             | Next rq' st' => run ls None (with_url (url rq0) rq') st'
             | Raise e st' => run ls (Some e) rq0 st'
             | Stop st' => st'
             end)) ->
  m = m'
  /\ (endpoint_limit m <? bytes (payload rq))%N = false
  /\ exists b, content (payload rq) = Some b /\ msg = pick (rpc_fields m) b.
Proof.
  intros G. rewrite bridge_hit by exact G.
  destruct (endpoint_limit m' <? bytes (payload rq))%N eqn:El; [intros []|].
  destruct (content (payload rq)) as [b|]; [|intros []].
  cbv zeta.
  destruct (rpc w m' (pick (rpc_fields m') b)) as [r | code em | e |];
    (intros [H | []]; injection H as <- <-;
     split; [reflexivity | split; [exact El | now exists b]]).
Qed.

Lemma routes_called rq m msg :
  In (Invoked m msg) (trace (run (routes w) None rq fresh)) ->
  handles_method (endpoint_method m) (req_method rq)
  && Express.route_match (endpoint_path m) (pathname (url rq)) = true
  /\ (endpoint_limit m <? bytes (payload rq))%N = false
  /\ exists b, content (payload rq) = Some b /\ msg = pick (rpc_fields m) b.
Proof.
  unfold routes, mounted, bridged.
  rewrite run_use.
  destruct (Express.use_match _ _);
    [rewrite proxy_hit_trace by exact eq_refl; intros [H | []]; discriminate H|].
  do 3 (rewrite run_verb;
        match goal with |- context [if ?c then _ else _] => destruct c eqn:?E end;
        [intros H; apply bridge_hit_called in H as (-> & Hl & Hb);
           [now split | exact eq_refl]|]).
  do 6 (rewrite run_use;
        destruct (Express.use_match _ _);
        [rewrite proxy_hit_trace by exact eq_refl; intros [H | []]; discriminate H|]).
  rewrite run_verb.
  match goal with |- context [if ?c then _ else _] => destruct c end;
    intros [].
Qed.

End Calls.

(** X3. For a target in origin form, an RPC client is called only for a
    request that matches the bridged endpoint of that call (method and
    path), has a bearer credential that verifies and an entity the JSON
    body parser accepts within its limit; the message is then the
    endpoint's fields of what the parser made of the entity, and the call
    is the only outbound call made for the request.  The fields are the
    ones each handler destructures. *)
Theorem rpc_call_requires (w : world) (i : inbound) (m : rpc_method)
    (msg : list (string * option json)) :
  origin_form (in_target i) = true ->
  In (Invoked m msg) (trace (handle w i)) ->
  handles_method (endpoint_method m) (in_method i) = true
  /\ Express.route_match (endpoint_path m) (pathname (in_target i)) = true
  /\ (exists claims, valid_bearer w i claims)
  /\ (bytes (in_entity i) <= endpoint_limit m)%N
  /\ (exists b, content (in_entity i) = Some b
                /\ msg = map (fun k => (k, prop k b)) (rpc_fields m))
  /\ trace (handle w i) = [Invoked m msg]
  /\ rpc_fields BlogCreate = ["author"; "title"; "description"; "images"]
  /\ rpc_fields BlogPostComment = ["blogId"; "author"; "text"]
  /\ rpc_fields TourCreateTour
     = ["author"; "title"; "description"; "difficulty"; "price"; "tags";
        "keyPoints"; "durations"; "length"]
  /\ (endpoint_method BlogCreate, endpoint_path BlogCreate) = (POST, "/api/blog")
  /\ (endpoint_method BlogPostComment, endpoint_path BlogPostComment)
     = (PATCH, "/api/blog/comment")
  /\ (endpoint_method TourCreateTour, endpoint_path TourCreateTour)
     = (POST, "/api/tour").
Proof.
  intros _ Hin.
  assert (Hgo : forall rq,
             handle w i = run (routes w) None rq fresh ->
             req_method rq = in_method i -> url rq = in_target i ->
             payload rq = in_entity i ->
             at_endpoint m i = true
             /\ (bytes (in_entity i) <= endpoint_limit m)%N
             /\ (exists b, content (in_entity i) = Some b
                           /\ msg = pick (rpc_fields m) b)
             /\ trace (handle w i) = [Invoked m msg]).
  { intros rq E Hm Hu Hp. rewrite E in Hin.
    pose proof (routes_invoked w rq m msg Hin) as Hrun.
    apply routes_called in Hin as (Hc & Hl & Hb).
    rewrite Hm, Hu in Hc. rewrite Hp in Hl, Hb.
    split; [exact Hc|]. split; [now apply N.ltb_ge|]. split; [exact Hb|].
    rewrite E, Hrun. cbv zeta. destruct (rpc w m msg); reflexivity. }
  destruct (gate_outcome w i) as [E | [E | [(Ha & E) | (Ha & c & Hc & E)]]].
  - rewrite E in Hin. destruct Hin.
  - rewrite E in Hin. destruct Hin.
  - destruct (Hgo (receive i) E eq_refl eq_refl eq_refl) as (He & _).
    rewrite (endpoint_not_auth m i He) in Ha. discriminate Ha.
  - destruct (Hgo (with_user c (receive i)) E eq_refl eq_refl eq_refl)
      as (He & Hl & Hb & Ht).
    unfold at_endpoint in He. apply andb_true_iff in He as [He1 He2].
    split; [exact He1|]. split; [exact He2|]. split; [now exists c|].
    split; [exact Hl|]. split; [exact Hb|]. split; [exact Ht|].
    repeat split.
Qed.

Lemma rpc_call_requires_witness :
  let i := sample_request POST "/api/tour" (Some "Bearer good") in
  Express.route_match "/api/tour" (pathname (in_target i)) = true
  /\ trace (handle quiet_world i)
     = [Invoked TourCreateTour
          [("author", None); ("title", None); ("description", None);
           ("difficulty", None); ("price", None); ("tags", None);
           ("keyPoints", None); ("durations", None); ("length", None)]].
Proof.
  intros i.
  destruct (rpc_call_requires quiet_world i TourCreateTour
              (pick (rpc_fields TourCreateTour) (JObj [])))
    as (_ & H1 & _ & _ & _ & H2 & _).
  - reflexivity.
  - simpl. left. reflexivity.
  - split; [exact H1 | exact H2].
Defined.

(** X4. Under [/api/blog] and [/api/tour] every request with a target in
    origin form that has a credential and is not one of the bridged
    endpoints goes to the proxy of that prefix, which puts the prefix in
    front of the url the proxy library hands it.  With 3.x a sub-path is
    forwarded as it came and the bare prefix with a slash added; with a
    release up to 2.x the prefix is there twice. *)
Theorem shared_prefix_proxied (w : world) (i : inbound) (r : proxy_rule)
    (rest : string) (claims : json) :
  origin_form (in_target i) = true ->
  In r [blog_rule; tour_rule] ->
  in_target i = mount r +:+ rest ->
  valid_bearer w i claims ->
  off_bridge i ->
  (subpath rest = true ->
   trace (handle w i)
   = [Proxied r (in_method i)
        (match library w with
         | Hpm2 => mount r +:+ in_target i
         | Hpm3 => in_target i
         end)])
  /\ (bare rest = true ->
   trace (handle w i)
   = [Proxied r (in_method i)
        (match library w with
         | Hpm2 => mount r +:+ in_target i
         | Hpm3 => mount r +:+ "/" +:+ rest
         end)]).
Proof.
  intros _ Hr Ht Hc Hoff.
  assert (Hin : In r route_table).
  { simpl in Hr |- *. decompose [or] Hr; try contradiction; subst; tauto. }
  assert (Ha : Str.startsWith "/auth" (in_target i) = false).
  { rewrite Ht. simpl in Hr.
    decompose [or] Hr; subst; try reflexivity; contradiction. }
  assert (Hp : forall u, apply_rewrite (pathRewrite r) u = mount r +:+ u).
  { intros u. simpl in Hr.
    decompose [or] Hr; subst; try reflexivity; contradiction. }
  rewrite (gate_pass w i claims Ha Hc).
  split.
  - intros Hs.
    rewrite (subpath_proxied w r (with_user claims (receive i)) rest Hin Ht Hs
               (fun _ => Hoff)).
    rewrite Hp. destruct (library w); [reflexivity | now rewrite Ht].
  - intros Hb.
    rewrite (bare_proxied w r (with_user claims (receive i)) rest Hin Ht Hb
               (fun _ => Hoff)).
    rewrite Hp. destruct (library w); reflexivity.
Qed.

Lemma shared_prefix_proxied_witness :
  trace (handle quiet_world (sample_request GET "/api/blog/12?full=1" (Some "Bearer good")))
    = [Proxied blog_rule GET "/api/blog/12?full=1"]
  /\ trace (handle legacy_world
              (sample_request GET "/api/blog/12?full=1" (Some "Bearer good")))
    = [Proxied blog_rule GET "/api/blog/api/blog/12?full=1"]
  /\ trace (handle quiet_world (sample_request GET "/api/tour" (Some "Bearer good")))
    = [Proxied tour_rule GET "/api/tour/"].
Proof.
  assert (Hv : forall l r u t,
             valid_bearer (sample_world l r u)
               (sample_request GET t (Some "Bearer good")) sample_claims).
  { intros l r u t. exists "Bearer good", "good". repeat split. }
  split; [|split].
  - destruct (shared_prefix_proxied quiet_world
                (sample_request GET "/api/blog/12?full=1" (Some "Bearer good"))
                blog_rule "/12?full=1" sample_claims) as (H & _).
    + reflexivity.
    + simpl; tauto.
    + reflexivity.
    + apply Hv.
    + intros m. destruct m; reflexivity.
    + apply H. reflexivity.
  - destruct (shared_prefix_proxied legacy_world
                (sample_request GET "/api/blog/12?full=1" (Some "Bearer good"))
                blog_rule "/12?full=1" sample_claims) as (H & _).
    + reflexivity.
    + simpl; tauto.
    + reflexivity.
    + apply Hv.
    + intros m. destruct m; reflexivity.
    + apply H. reflexivity.
  - destruct (shared_prefix_proxied quiet_world
                (sample_request GET "/api/tour" (Some "Bearer good"))
                tour_rule "" sample_claims) as (_ & H).
    + reflexivity.
    + simpl; tauto.
    + reflexivity.
    + apply Hv.
    + intros m. destruct m; reflexivity.
    + apply H. reflexivity.
Defined.

(** ** Unmatched requests and upstream outcomes *)

(** X5. A request with a target in origin form that has passed the gate
    and matches no mount point, no bridged endpoint and not the health
    probe is answered 404 by the router, and nothing is called for it:
    there is no catch-all route. *)
Theorem unmatched_not_found (w : world) (i : inbound) :
  origin_form (in_target i) = true ->
  admitted w i ->
  (forall r, In r route_table ->
             Express.use_match (mount r) (pathname (in_target i)) = None) ->
  off_bridge i ->
  health_probe i = false ->
  sent (handle w i) = [ {| status := 404; content_of := ErrorPage |} ]
  /\ trace (handle w i) = [].
Proof.
  intros _ Had Hr Hoff Hh. unfold health_probe in Hh.
  destruct (admitted_through w i Had) as (rq & E & Hu & Hm & _).
  rewrite E. rewrite <- Hu, <- Hm in Hh.
  rewrite (routes_none w rq fresh); [split; reflexivity | | | exact Hh].
  - intros r Hin. rewrite Hu. now apply Hr.
  - intros m. rewrite Hu, Hm. apply Hoff.
Qed.

Lemma unmatched_not_found_witness :
  sent (handle quiet_world (sample_request GET "/authority" None))
    = [ {| status := 404; content_of := ErrorPage |} ]
  /\ sent (handle legacy_world (sample_request DELETE "/api/tours/3" (Some "Bearer good")))
     = [ {| status := 404; content_of := ErrorPage |} ].
Proof.
  split.
  - destruct (unmatched_not_found quiet_world (sample_request GET "/authority" None))
      as (H & _).
    + reflexivity.
    + left. reflexivity.
    + intros r Hr. simpl in Hr.
      decompose [or] Hr; try contradiction; subst r; reflexivity.
    + intros m. destruct m; reflexivity.
    + reflexivity.
    + exact H.
  - destruct (unmatched_not_found legacy_world
                (sample_request DELETE "/api/tours/3" (Some "Bearer good")))
      as (H & _).
    + reflexivity.
    + right. exists sample_claims, "Bearer good", "good". repeat split.
    + intros r Hr. simpl in Hr.
      decompose [or] Hr; try contradiction; subst r; reflexivity.
    + intros m. destruct m; reflexivity.
    + reflexivity.
    + exact H.
Defined.

Section Outcomes.

Variable w : world.

(** What a proxy whose callbacks let the exchange through leaves behind. *)
Lemma proxy_settled r rq :
  (forall path, passes_onProxyReq w r rq path = true) ->
  (forall code, passes_onProxyRes w r rq code = true) ->
  let path := apply_rewrite (pathRewrite r) (handed (library w) rq) in
  let st1 := record (Proxied r (req_method rq) path) fresh in
  settle (proxy w r rq fresh)
  = match upstream w (target r) (req_method rq) path with
    | UpThrow e => send 500 (message "Gateway internal error") st1
    | UpReply code b => send code (Relayed b) st1
    | UpError None err => failed w r err st1
    | UpError (Some x) err => failed w r err (wrote x st1)
    end.
Proof.
  intros Hq Hp. unfold proxy, settle. cbv zeta.
  destruct (upstream w (target r) (req_method rq)
              (apply_rewrite (pathRewrite r) (handed (library w) rq)))
    as [c b | [x|] err | e];
    rewrite ?Hq, ?Hp; cbv [andb]; reflexivity.
Qed.

End Outcomes.

(** X6. A request with a target in origin form for a sub-path of a
    proxied route that has passed the gate (and is not a bridged
    endpoint) goes to the proxy of that route and nowhere else, and the
    answer is the upstream's business: its response is relayed; when the
    exchange fails after the response was started, no other response is
    written (3.x ends the one under way with its error text); when it
    fails before anything was written the one answer
    is, with a proxy library up to 2.x, the 502 of the route's [onError]
    with its message and the text of the error, and with 3.x, which does
    not read [onError], the error response of the library itself.  (With
    a release up to 2.x the tour-execution route is left out: its
    callbacks raise.) *)
Theorem upstream_outcome_answer (w : world) (i : inbound) (r : proxy_rule)
    (rest : string) :
  origin_form (in_target i) = true ->
  In r route_table ->
  in_target i = mount r +:+ rest ->
  subpath rest = true ->
  admitted w i ->
  (In r [blog_rule; tour_rule] -> off_bridge i) ->
  (library w = Hpm2 -> r <> tour_execution_rule) ->
  let path := apply_rewrite (pathRewrite r)
                (match library w with Hpm2 => in_target i | Hpm3 => rest end) in
  trace (handle w i) = [Proxied r (in_method i) path]
  /\ (forall code b,
      upstream w (target r) (in_method i) path = UpReply code b ->
      sent (handle w i) = [ {| status := code; content_of := Relayed b |} ])
  /\ (forall err,
      upstream w (target r) (in_method i) path = UpError None err ->
      sent (handle w i)
      = [ match library w with
          | Hpm2 =>
              {| status := 502;
                 content_of := Json (JObj [("message", JStr (failure_message r));
                                           ("error", JStr err)]) |}
          | Hpm3 =>
              {| status := error_status w err; content_of := LibraryError |}
          end ])
  /\ (forall x err,
      upstream w (target r) (in_method i) path = UpError (Some x) err ->
      sent (handle w i)
      = [ match library w with
          | Hpm2 => x
          | Hpm3 => {| status := status x; content_of := Interrupted (content_of x) |}
          end ]).
Proof.
  intros _ Hr Ht Hs Had Hoff Hne path.
  destruct (admitted_through w i Had) as (rq & E & Hu & Hm & _ & _ & Ho).
  destruct (use_match_subpath (mount r) rest (mount_no_query r Hr) Hs)
    as (n & Hn & Hx).
  rewrite <- Ht, <- Hu in Hn, Hx.
  set (rq' := with_url (Express.trim_prefix n (url rq)) rq).
  destruct (callbacks_pass w r rq' Hr Hne) as [Hq Hp].
  assert (Hpath : apply_rewrite (pathRewrite r) (handed (library w) rq') = path).
  { unfold path, handed, rq'. cbn [originalUrl url with_url].
    rewrite Hx, Ho. destruct (library w); reflexivity. }
  assert (Hrun : handle w i
                 = let st1 := record (Proxied r (in_method i) path) fresh in
                   match upstream w (target r) (in_method i) path with
                   | UpThrow e => send 500 (message "Gateway internal error") st1
                   | UpReply code b => send code (Relayed b) st1
                   | UpError None err => failed w r err st1
                   | UpError (Some x) err => failed w r err (wrote x st1)
                   end).
  { rewrite E.
    rewrite (routes_proxy w r rq fresh rest n Hr).
    - fold rq'. pose proof (proxy_settled w r rq' Hq Hp) as Hps.
      cbv zeta in Hps. rewrite Hps, Hpath.
      unfold rq'. cbn [req_method with_url]. rewrite Hm.
      reflexivity.
    - now rewrite Hu.
    - intros Hin m. rewrite Hu, Hm. now apply Hoff.
    - exact Hn. }
  rewrite Hrun. cbv zeta. split; [|split; [|split]].
  - destruct (upstream w (target r) (in_method i) path) as [c b | [x|] err | e];
      try reflexivity;
      unfold failed, onError; destruct (library w); reflexivity.
  - intros code b ->. reflexivity.
  - intros err ->. unfold failed, onError. destruct (library w); reflexivity.
  - intros x err ->. unfold failed, onError. destruct (library w); reflexivity.
Qed.

Lemma upstream_outcome_answer_witness :
  let i := sample_request GET "/stakeholders/7" (Some "Bearer good") in
  let part := {| status := 200; content_of := Relayed "par" |} in
  sent (handle (sample_world Hpm2 (RpcReply JNull) (UpError None "socket hang up")) i)
  = [ {| status := 502;
         content_of :=
           Json (JObj [("message", JStr "Gateway failed to reach stakeholders service");
                       ("error", JStr "socket hang up")]) |} ]
  /\ sent (handle (sample_world Hpm3 (RpcReply JNull) (UpError None "socket hang up")) i)
     = [ {| status := 504; content_of := LibraryError |} ]
  /\ sent (handle (sample_world Hpm2 (RpcReply JNull) (UpError (Some part) "aborted")) i)
     = [ {| status := 200; content_of := Relayed "par" |} ]
  /\ sent (handle (sample_world Hpm3 (RpcReply JNull) (UpError (Some part) "aborted")) i)
     = [ {| status := 200; content_of := Interrupted (Relayed "par") |} ].
Proof.
  intros i part.
  assert (Hgo : forall l u,
             let w := sample_world l (RpcReply JNull) u in
             let path := apply_rewrite (pathRewrite stakeholders_rule)
                           (match library w with
                            | Hpm2 => in_target i
                            | Hpm3 => "/7"
                            end) in
             (forall err,
                 upstream w (target stakeholders_rule) (in_method i) path
                 = UpError None err ->
                 sent (handle w i)
                 = [ match library w with
                     | Hpm2 =>
                         {| status := 502;
                            content_of :=
                              Json (JObj [("message",
                                           JStr (failure_message stakeholders_rule));
                                          ("error", JStr err)]) |}
                     | Hpm3 =>
                         {| status := error_status w err; content_of := LibraryError |}
                     end ])
             /\ (forall x err,
                    upstream w (target stakeholders_rule) (in_method i) path
                    = UpError (Some x) err ->
                    sent (handle w i)
                    = [ match library w with
                        | Hpm2 => x
                        | Hpm3 => {| status := status x;
                                     content_of := Interrupted (content_of x) |}
                        end ])).
  { intros l u w path.
    destruct (upstream_outcome_answer w i stakeholders_rule "/7")
      as (_ & _ & H1 & H2).
    - reflexivity.
    - simpl; tauto.
    - reflexivity.
    - reflexivity.
    - right. exists sample_claims, "Bearer good", "good". repeat split.
    - intros [H | [H | []]]; discriminate H.
    - intros _ H; discriminate H.
    - split; [exact H1 | exact H2]. }
  split; [|split; [|split]].
  - destruct (Hgo Hpm2 (UpError None "socket hang up")) as (H & _).
    apply (H "socket hang up"). reflexivity.
  - destruct (Hgo Hpm3 (UpError None "socket hang up")) as (H & _).
    apply (H "socket hang up"). reflexivity.
  - destruct (Hgo Hpm2 (UpError (Some part) "aborted")) as (_ & H).
    apply (H part "aborted"). reflexivity.
  - destruct (Hgo Hpm3 (UpError (Some part) "aborted")) as (_ & H).
    apply (H part "aborted"). reflexivity.
Defined.

(** ** The earlier variant and this one *)

Section Variants.

Variable w : world.

(** the gate hands on the request it was given, with or without a
    principal, and writes nothing *)
Lemma verifyJWT_next rq st rq' st' :
  verifyJWT w rq st = Next rq' st' ->
  st' = st /\ req_method rq' = req_method rq /\ url rq' = url rq.
Proof.
  unfold verifyJWT.
  destruct (Str.startsWith "/auth" (originalUrl rq)).
  - intros H. injection H as <- <-. repeat split.
  - destruct (authorization rq) as [h|]; [|intros H; discriminate H].
    destruct (String.eqb h "" || negb (Str.startsWith "Bearer " h));
      [intros H; discriminate H|].
    destruct (token_of h ≫= _) as [c|]; [|intros H; discriminate H].
    intros H. injection H as <- <-. repeat split.
Qed.

Lemma verifyJWT_no_raise rq st e st' : verifyJWT w rq st <> Raise e st'.
Proof.
  unfold verifyJWT.
  destruct (Str.startsWith "/auth" (originalUrl rq)); [discriminate|].
  destruct (authorization rq) as [h|]; [|discriminate].
  destruct (String.eqb h "" || negb (Str.startsWith "Bearer " h)); [discriminate|].
  destruct (token_of h ≫= _); discriminate.
Qed.

(** Where neither a bridged endpoint, nor one of the two later routes,
    nor the health probe matches, the two stacks do the same. *)
Lemma routes_agree rq st :
  (forall m, handles_method (endpoint_method m) (req_method rq)
             && Express.route_match (endpoint_path m) (pathname (url rq)) = false) ->
  Express.use_match "/api/tour-execution" (pathname (url rq)) = None ->
  Express.use_match "/api/carts" (pathname (url rq)) = None ->
  handles_method GET (req_method rq)
  && Express.route_match "/health" (pathname (url rq)) = false ->
  run (routes w) None rq st = run (EarlierApp.routes w) None rq st.
Proof.
  intros Hoff Hte Hc Hh. unfold routes, EarlierApp.routes, mounted, bridged.
  destruct (Express.use_match (mount auth_rule) (pathname (url rq))) as [n|] eqn:E1;
    [rewrite !(run_use_hit _ _ _ _ _ n E1);
     rewrite !proxy_hit by exact eq_refl; reflexivity|].
  rewrite !(run_use_miss _ _ _ _ _ E1).
  do 3 (rewrite run_verb, Hoff).
  destruct (Express.use_match (mount stakeholders_rule) (pathname (url rq)))
    as [n|] eqn:E2;
    [rewrite !(run_use_hit _ _ _ _ _ n E2);
     rewrite !proxy_hit by exact eq_refl; reflexivity|].
  rewrite !(run_use_miss _ _ _ _ _ E2).
  destruct (Express.use_match (mount blog_rule) (pathname (url rq))) as [n|] eqn:E3;
    [rewrite !(run_use_hit _ _ _ _ _ n E3);
     rewrite !proxy_hit by exact eq_refl; reflexivity|].
  rewrite !(run_use_miss _ _ _ _ _ E3).
  destruct (Express.use_match (mount tour_rule) (pathname (url rq))) as [n|] eqn:E4;
    [rewrite !(run_use_hit _ _ _ _ _ n E4);
     rewrite !proxy_hit by exact eq_refl; reflexivity|].
  rewrite !(run_use_miss _ _ _ _ _ E4).
  rewrite run_use_miss by exact Hte.
  destruct (Express.use_match (mount followers_rule) (pathname (url rq)))
    as [n|] eqn:E5;
    [rewrite !(run_use_hit _ _ _ _ _ n E5);
     rewrite !proxy_hit by exact eq_refl; reflexivity|].
  rewrite !(run_use_miss _ _ _ _ _ E5).
  rewrite run_use_miss by exact Hc.
  rewrite !run_verb, Hh. reflexivity.
Qed.

End Variants.

(** X7. The gateway is the earlier variant with routes added: a request
    with a target in origin form that matches none of the bridged
    endpoints, neither the tour-execution nor the carts mount, and is not
    the health probe (whose text differs in the two sources) gets from
    both exactly the same responses and the same forwarding.  The health
    probe is answered 200 by both, by the earlier variant with the rocket
    emoji, by this one with the bytes its source holds. *)
Theorem earlier_variant_agrees (w : world) (i : inbound) :
  (origin_form (in_target i) = true ->
   off_bridge i ->
   Express.use_match "/api/tour-execution" (pathname (in_target i)) = None ->
   Express.use_match "/api/carts" (pathname (in_target i)) = None ->
   health_probe i = false ->
   handle w i = EarlierApp.handle w i)
  /\ (forall claims,
        in_method i = GET -> pathname (in_target i) = "/health" ->
        valid_bearer w i claims ->
        sent (handle w i)
        = [ {| status := 200; content_of := Text "API Gateway is running ðŸš€" |} ]
        /\ sent (EarlierApp.handle w i)
           = [ {| status := 200; content_of := Text "API Gateway is running 🚀" |} ]).
Proof.
  split.
  - intros _ Hoff Hte Hc Hh.
    unfold handle, EarlierApp.handle, app, EarlierApp.app.
    cbn [run].
    destruct (verifyJWT w (receive i) fresh) as [rq' st' | e st' | st'] eqn:E.
    + apply verifyJWT_next in E as (-> & Hm & _).
      apply routes_agree.
      * intros m. cbn [url req_method with_url]. rewrite Hm. apply Hoff.
      * exact Hte.
      * exact Hc.
      * cbn [url req_method with_url]. rewrite Hm. exact Hh.
    + destruct (verifyJWT_no_raise w _ _ _ _ E).
    + reflexivity.
  - intros claims Hm Hp Hc.
    assert (Ha : Str.startsWith "/auth" (in_target i) = false).
    { rewrite <- (startsWith_pathname "/auth" _ eq_refl), Hp. reflexivity. }
    split.
    + rewrite (gate_pass w i claims Ha Hc).
      rewrite routes_health; [reflexivity | exact Hm | exact Hp].
    + unfold EarlierApp.handle, EarlierApp.app. cbn [run].
      rewrite (verifyJWT_pass w i claims Ha Hc).
      assert (HL : Str.lower (pathname (url (with_url (url (receive i))
                                               (with_user claims (receive i)))))
                   = "/health").
      { cbn [url with_url with_user receive]. now rewrite Hp. }
      unfold EarlierApp.routes, mounted.
      do 5 (rewrite run_use_miss by (by_path HL)).
      rewrite run_verb_hit; [reflexivity | | by_path HL].
      cbn [req_method with_url with_user receive]. now rewrite Hm.
Qed.

Lemma earlier_variant_agrees_witness :
  handle legacy_world (sample_request GET "/api/followers/42" (Some "Bearer good"))
  = EarlierApp.handle legacy_world
      (sample_request GET "/api/followers/42" (Some "Bearer good"))
  /\ sent (EarlierApp.handle quiet_world
             (sample_request GET "/health" (Some "Bearer good")))
     = [ {| status := 200; content_of := Text "API Gateway is running 🚀" |} ].
Proof.
  split.
  - destruct (earlier_variant_agrees legacy_world
                (sample_request GET "/api/followers/42" (Some "Bearer good")))
      as (H & _).
    apply H.
    + reflexivity.
    + intros m. destruct m; reflexivity.
    + reflexivity.
    + reflexivity.
    + reflexivity.
  - destruct (earlier_variant_agrees quiet_world
                (sample_request GET "/health" (Some "Bearer good")))
      as (_ & H).
    destruct (H sample_claims eq_refl eq_refl) as (_ & H2).
    + exists "Bearer good", "good". repeat split.
    + exact H2.
Defined.

(** ** The start-up checks of the three variants *)

Lemma check_None (e : gmap string string) (keys : list string) :
  (forall key, In key keys -> unset e key = false) -> Earlier.check e keys = None.
Proof.
  induction keys as [|k keys IH]; intros H; simpl; [reflexivity|].
  rewrite (H k) by now left. apply IH. intros key Hk. apply H. now right.
Qed.

Lemma check_Some (e : gmap string string) (keys : list string) code :
  Earlier.check e keys = Some code -> code = 1%Z.
Proof.
  induction keys as [|k keys IH]; simpl; [discriminate|].
  destruct (unset e k); [intros H; now injection H | exact IH].
Qed.

(** X8. The three variants check a growing list of base URLs: an
    environment the current start-up check lets pass also starts the two
    earlier variants, each on its own default port; and the one-by-one
    check of the first variant exits, with code 1, exactly when one of its
    four URLs is unset or empty. *)
Theorem older_checks_are_weaker (construct : option string -> option string)
    (e : gmap string string) :
  (startup construct e <> Exit 1 ->
     Earlier.startup e
     = Listening (if unset e "PORT" then "4000" else default "4000" (e !! "PORT"))
     /\ Legacy.startup e = Listening (PORT e))
  /\ (Legacy.startup e = Exit 1
      <-> exists key, In key Legacy.requiredEnv /\ unset e key = true)
  /\ (forall code, Legacy.startup e = Exit code -> code = 1%Z).
Proof.
  split; [|split].
  - intros Hne.
    assert (Hall : forall key, In key requiredEnv -> unset e key = false).
    { intros key Hk. destruct (unset e key) eqn:Hu; [|reflexivity].
      exfalso. apply Hne. unfold startup, missingVars.
      assert (Hm : 0 < length (List.filter (unset e) requiredEnv))
        by (apply missing_iff; now exists key).
      apply Nat.ltb_lt in Hm. now rewrite Hm. }
    split.
    + unfold Earlier.startup. rewrite check_None; [reflexivity|].
      intros key Hk. apply Hall. simpl in Hk |- *. tauto.
    + unfold Legacy.startup. rewrite check_None; [reflexivity|].
      intros key Hk. apply Hall. simpl in Hk |- *. tauto.
  - unfold Legacy.startup. rewrite <- earlier_check_iff.
    destruct (Earlier.check e Legacy.requiredEnv) as [c|] eqn:E.
    + rewrite (check_Some _ _ _ E). tauto.
    + split; intros H; discriminate H.
  - intros code. unfold Legacy.startup.
    destruct (Earlier.check e Legacy.requiredEnv) as [c|] eqn:E;
      [|intros H; discriminate H].
    intros H. injection H as <-. exact (check_Some _ _ _ E).
Qed.

Lemma older_checks_are_weaker_witness :
  Earlier.startup sample_env = Listening "4000"
  /\ Legacy.startup sample_env = Listening "8080".
Proof.
  destruct (older_checks_are_weaker strict_client sample_env) as (H & _).
  apply H. discriminate.
Defined.

(** ** The shapes of the answers *)

Section Taxonomy.

Variable w : world.

(** the kinds of response the layers from the gate on write *)
Local Abbreviation classified x :=
  (from_upstream w x
   \/ (status x = 200 /\ content_of x = Text "API Gateway is running ðŸš€")
   \/ (status x = 201 /\ exists r, content_of x = Json r)
   \/ (In (status x) [401; 403; 404; 500] /\ error_body (content_of x))
   \/ (status x = 502 /\ library w = Hpm2
       /\ exists r err, In r route_table
                        /\ content_of x
                           = Json (JObj [("message", JStr (failure_message r));
                                         ("error", JStr err)]))
   \/ (status x = 404 /\ content_of x = ErrorPage)
   \/ (library w = Hpm3 /\ content_of x = LibraryError)
   \/ (library w = Hpm3 /\ cut_short w x)).

Lemma internal_error_classified x st :
  In x (sent (send 500 (message "Gateway internal error") st)) ->
  sent st = [] -> classified x.
Proof.
  intros Hx Hs. unfold send in Hx. simpl in Hx. rewrite Hs in Hx.
  destruct Hx as [<- | []]. right; right; right; left. split.
  - simpl; tauto.
  - eexists _, _. split; reflexivity.
Qed.

Lemma proxy_hit_classified r rq0 rq ls x :
  guarded ls -> In r route_table ->
  In x (sent (match proxy w r rq fresh with
              | Next rq' st' => run ls None (with_url (url rq0) rq') st'
              | Raise e st' => run ls (Some e) rq0 st'
              | Stop st' => st'
              end)) ->
  classified x.
Proof.
  intros G Hr. rewrite proxy_hit by exact G. unfold proxy, settle. cbv zeta.
  destruct (upstream w (target r) (req_method rq)
              (apply_rewrite (pathRewrite r) (handed (library w) rq)))
    as [code b | [p|] err | e] eqn:U.
  - match goal with
    | |- context [if ?c then Stop _ else Stop _] => destruct c
    end; [|intros []].
    intros [<- | []]. left. eexists _, _, _. left. exists b.
    split; [exact U | reflexivity].
  - match goal with
    | |- context [if ?c then Stop _ else Stop _] => destruct c
    end; [|intros []].
    unfold failed, onError. destruct (library w) eqn:L; simpl.
    + intros [<- | []]. left. eexists _, _, _. right. exists err. exact U.
    + intros [<- | []]. do 7 right. split; [reflexivity|].
      eexists _, _, _, p, err. split; [exact U | reflexivity].
  - match goal with
    | |- context [if ?c then Stop _ else Stop _] => destruct c
    end; [|intros []].
    unfold failed, onError. destruct (library w) eqn:L; simpl.
    + intros [<- | []]. do 4 right. left.
      split; [reflexivity|]. split; [reflexivity|].
      exists r, err. split; [exact Hr | reflexivity].
    + intros [<- | []]. do 6 right. left. split; reflexivity.
  - intros Hx. now apply (internal_error_classified x _ Hx).
Qed.

Lemma bridge_hit_classified m rq0 rq ls x :
  guarded ls ->
  In x (sent (match chain [express_json (endpoint_limit m); bridge w m] rq fresh with
              | Next rq' st' => run ls None (with_url (url rq0) rq') st'
              | Raise e st' => run ls (Some e) rq0 st'
              | Stop st' => st'
              end)) ->
  classified x.
Proof.
  intros G. rewrite bridge_hit by exact G.
  destruct (endpoint_limit m <? bytes (payload rq))%N;
    [intros Hx; now apply (internal_error_classified x _ Hx)|].
  destruct (content (payload rq)) as [b|];
    [|intros Hx; now apply (internal_error_classified x _ Hx)].
  cbv zeta. destruct (rpc w m (pick (rpc_fields m) b)) as [r | code em | e |].
  - intros [<- | []]. right; right; left. split; [reflexivity | now exists r].
  - intros [<- | []]. right; right; right; left. split.
    + simpl. destruct (code =? NOT_FOUND)%Z; tauto.
    + eexists _, _. split; reflexivity.
  - intros Hx. now apply (internal_error_classified x _ Hx).
  - intros [].
Qed.

Lemma routes_classified rq x :
  In x (sent (run (routes w) None rq fresh)) -> classified x.
Proof.
  unfold routes, mounted, bridged.
  rewrite run_use.
  destruct (Express.use_match _ _);
    [apply proxy_hit_classified; [exact eq_refl | simpl; tauto]|].
  do 3 (rewrite run_verb;
        match goal with |- context [if ?c then _ else _] => destruct c end;
        [apply bridge_hit_classified; exact eq_refl|]).
  do 6 (rewrite run_use;
        destruct (Express.use_match _ _);
        [apply proxy_hit_classified; [exact eq_refl | simpl; tauto]|]).
  rewrite run_verb.
  match goal with |- context [if ?c then _ else _] => destruct c end.
  - intros [<- | []]. right; left. split; reflexivity.
  - intros [<- | []]. do 5 right. left. split; reflexivity.
Qed.

End Taxonomy.

(** X9. Every response written from the authentication gate on (the
    rate limiter and the CORS middleware in front of it write their own)
    is of one of these kinds: the upstream's own (relayed, or what had
    been relayed when the exchange broke); the health text with 200; the
    RPC response with 201; a JSON body with a [message] string under 401,
    403, 404 or 500; with a proxy library up to 2.x, the 502 of a route's
    [onError] with its message and the error text; the router's 404 page;
    with the proxy library 3.x, the error response of the library
    itself, or the upstream's response ended with the error text of the
    library. *)
Theorem response_taxonomy (w : world) (i : inbound) (x : response) :
  In x (sent (handle w i)) ->
  from_upstream w x
  \/ (status x = 200 /\ content_of x = Text "API Gateway is running ðŸš€")
  \/ (status x = 201 /\ exists r, content_of x = Json r)
  \/ (In (status x) [401; 403; 404; 500] /\ error_body (content_of x))
  \/ (status x = 502 /\ library w = Hpm2
      /\ exists r err, In r route_table
                       /\ content_of x
                          = Json (JObj [("message", JStr (failure_message r));
                                        ("error", JStr err)]))
  \/ (status x = 404 /\ content_of x = ErrorPage)
  \/ (library w = Hpm3 /\ content_of x = LibraryError)
  \/ (library w = Hpm3 /\ cut_short w x).
Proof.
  destruct (gate_cases w i) as [-> | [-> | (rq & -> & _)]].
  - intros [<- | []]. right; right; right; left. split.
    + simpl; tauto.
    + eexists _, _. split; reflexivity.
  - intros [<- | []]. right; right; right; left. split.
    + simpl; tauto.
    + eexists _, _. split; reflexivity.
  - apply routes_classified.
Qed.

Lemma response_taxonomy_witness :
  let x := {| status := 404;
              content_of := Json (JObj [("message", JStr "no such blog")]) |} in
  In 404 [401; 403; 404; 500] /\ error_body (content_of x).
Proof.
  intros x.
  destruct (response_taxonomy
              (sample_world Hpm3 (RpcError NOT_FOUND "no such blog") (UpReply 200 "ok"))
              (sample_request POST "/api/blog" (Some "Bearer good")) x)
    as [(s & m & p & [(b & _ & H) | (err & H)])
       | [(H & _) | [(H & _) | [H | [(H & _) | [(_ & H) | [(_ & H) | (_ & (s' & m' & p' & x0 & err' & H & _))]]]]]]];
    try discriminate H.
  - simpl. left. reflexivity.
  - exact H.
Defined.

(** ** Outbound calls per request *)

Section Calls_per_request.

Variable w : world.

Lemma bridge_hit_calls m rq0 rq ls :
  guarded ls ->
  length (trace (match chain [express_json (endpoint_limit m); bridge w m] rq fresh with
                 | Next rq' st' => run ls None (with_url (url rq0) rq') st'
                 | Raise e st' => run ls (Some e) rq0 st'
                 | Stop st' => st'
                 end)) <= 1.
Proof.
  intros G. rewrite bridge_hit by exact G.
  destruct (endpoint_limit m <? bytes (payload rq))%N; [simpl; lia|].
  destruct (content (payload rq)) as [b|]; [|simpl; lia].
  cbv zeta. destruct (rpc w m (pick (rpc_fields m) b)); simpl; lia.
Qed.

Lemma routes_calls rq : length (trace (run (routes w) None rq fresh)) <= 1.
Proof.
  unfold routes, mounted, bridged.
  rewrite run_use.
  destruct (Express.use_match _ _);
    [rewrite proxy_hit_trace by exact eq_refl; simpl; lia|].
  do 3 (rewrite run_verb;
        match goal with |- context [if ?c then _ else _] => destruct c end;
        [apply bridge_hit_calls; exact eq_refl|]).
  do 6 (rewrite run_use;
        destruct (Express.use_match _ _);
        [rewrite proxy_hit_trace by exact eq_refl; simpl; lia|]).
  rewrite run_verb.
  match goal with |- context [if ?c then _ else _] => destruct c end;
    simpl; lia.
Qed.

End Calls_per_request.

(** X10. A request causes at most one outbound call, an upstream exchange
    or an RPC call: nothing is retried and nothing fans out.  A request
    the gate turns away causes none. *)
Theorem at_most_one_outbound_call (w : world) (i : inbound) :
  length (trace (handle w i)) <= 1
  /\ (Str.startsWith "/auth" (in_target i) = false ->
      (forall claims, ~ valid_bearer w i claims) ->
      trace (handle w i) = []).
Proof.
  split.
  - destruct (gate_cases w i) as [-> | [-> | (rq & -> & _)]].
    + simpl; lia.
    + simpl; lia.
    + apply routes_calls.
  - intros Ha Hno. destruct (gate_rejects w i Ha Hno) as [-> | ->]; reflexivity.
Qed.

Lemma at_most_one_outbound_call_witness :
  trace (handle quiet_world (sample_request POST "/api/blog" (Some "Bearer stale"))) = [].
Proof.
  destruct (at_most_one_outbound_call quiet_world
              (sample_request POST "/api/blog" (Some "Bearer stale"))) as (_ & H).
  apply H; [reflexivity|].
  intros claims (h & t & Hh & _ & Ht & Hv).
  injection Hh as <-. injection Ht as <-. discriminate Hv.
Defined.

(** ** The tour-execution route and its callbacks *)

Section Unanswered.

Variable w : world.

(** Up to 2.x, the proxy of the tour-execution route writes nothing
    unless the middleware itself fails. *)
Lemma tour_execution_proxy_stops rq :
  library w = Hpm2 ->
  (forall e,
      upstream w Tour (req_method rq) ("/api/tour-execution" +:+ originalUrl rq)
      <> UpThrow e) ->
  sent (settle (proxy w tour_execution_rule rq fresh)) = [].
Proof.
  intros Hl Hup. unfold proxy, settle. cbv zeta.
  rewrite Hl. cbn [handed].
  change (apply_rewrite (pathRewrite tour_execution_rule) (originalUrl rq))
    with ("/api/tour-execution" +:+ originalUrl rq).
  change (target tour_execution_rule) with Tour.
  rewrite (tour_execution_stops w rq _ Hl).
  destruct (upstream w Tour (req_method rq)
              ("/api/tour-execution" +:+ originalUrl rq))
    as [c b | [p|] err | e] eqn:U; try reflexivity.
  destruct (Hup e eq_refl).
Qed.

End Unanswered.

(** X11. With a proxy library up to 2.x, which calls the logging
    callbacks, a request the tour-execution proxy takes is not answered
    (unless the middleware itself fails): [onProxyReq] raises its
    reference error in the event emitter of the proxy, no layer of the
    router sees it, and neither the response of the upstream, nor the 502
    of the route, nor the 500 of the global error handler is written.
    From 3.x on the callbacks are not called and the request gets its one
    response. *)
Theorem tour_execution_unanswered (w : world) (i : inbound) (rest : string)
    (claims : json) :
  in_target i = "/api/tour-execution" +:+ rest ->
  subpath rest = true \/ bare rest = true ->
  valid_bearer w i claims ->
  (library w = Hpm2 ->
   (forall e,
       upstream w Tour (in_method i) ("/api/tour-execution" +:+ in_target i)
       <> UpThrow e) ->
   sent (handle w i) = []
   /\ trace (handle w i)
      = [Proxied tour_execution_rule (in_method i)
           ("/api/tour-execution" +:+ in_target i)])
  /\ (library w = Hpm3 -> exists x, sent (handle w i) = [x]).
Proof.
  intros Ht Hrest Hc.
  assert (Ha : Str.startsWith "/auth" (in_target i) = false)
    by (rewrite Ht; reflexivity).
  assert (Hr : In tour_execution_rule route_table) by (simpl; tauto).
  assert (Hn : exists n,
             Express.use_match (mount tour_execution_rule) (pathname (in_target i))
             = Some n).
  { rewrite Ht. destruct Hrest as [Hs | Hb].
    - destruct (use_match_subpath "/api/tour-execution" rest eq_refl Hs)
        as (n & Hn & _).
      now exists n.
    - destruct (use_match_bare "/api/tour-execution" rest eq_refl Hb) as (Hn & _).
      eexists. exact Hn. }
  destruct Hn as (n & Hn).
  rewrite (gate_pass w i claims Ha Hc).
  rewrite (routes_proxy w tour_execution_rule (with_user claims (receive i)) fresh
             rest n Hr Ht);
    [| intros [H | [H | []]]; discriminate H | exact Hn].
  split.
  - intros Hl Hup. split.
    + now apply tour_execution_proxy_stops.
    + rewrite proxy_trace, Hl. reflexivity.
  - intros Hl. apply proxy_one; [reflexivity | |];
      apply (callbacks_pass w tour_execution_rule _ Hr);
      intros Hl'; congruence.
Qed.

Lemma tour_execution_unanswered_witness :
  let i := sample_request GET "/api/tour-execution/7" (Some "Bearer good") in
  sent (handle legacy_world i) = []
  /\ sent (handle quiet_world i) = [ {| status := 200; content_of := Relayed "ok" |} ].
Proof.
  intros i.
  assert (Hv : forall l r u, valid_bearer (sample_world l r u) i sample_claims).
  { intros l r u. exists "Bearer good", "good". repeat split. }
  split.
  - destruct (tour_execution_unanswered legacy_world i "/7" sample_claims eq_refl)
      as (H & _).
    + left. reflexivity.
    + apply Hv.
    + destruct (H eq_refl) as (Hs & _); [|exact Hs].
      intros e He. discriminate He.
  - destruct (tour_execution_unanswered quiet_world i "/7" sample_claims eq_refl)
      as (_ & H).
    + left. reflexivity.
    + apply Hv.
    + destruct (H eq_refl) as (x & Hx). rewrite Hx.
      assert (Hq : sent (handle quiet_world i)
                   = [ {| status := 200; content_of := Relayed "ok" |} ])
        by reflexivity.
      rewrite Hq in Hx. exact (eq_sym Hx).
Defined.
